(** * Requester: the request command mixin (core/__init__.py)

    A shallow embedding of [RequestCommandMixin]: the activity indicator,
    the extraction of the environment block and of the [env_file]
    directive, the evaluation of the environment, the pre-flight polling
    loop [_run] and the response gathering loop [gather_responses].

    Python integers are [Z] (unbounded; [//] and [%] are [Z.div] and
    [Z.modulo], which round like Python's).  Python strings are [string];
    a character stands for a code point below 256.  Dictionaries are
    [gmap string _].  Calls into the editor ([sublime.*], [view.*]) and the
    overridable hooks of the mixin are recorded, in order, as events. *)

From Stdlib Require Import ZArith Lia Ascii String.
From stdpp Require Import base option list sorting gmap strings pretty.

Local Open Scope Z_scope.

(** ** Python strings *)

Module Py.

(** The line feed, written [\n] in the source. *)
Definition NL : string := String "010"%char EmptyString.

(** [s * n]: repetition; a count below one gives the empty string. *)
Fixpoint repeat_nat (s : string) (n : nat) : string :=
  match n with
  | O => ""
  | S k => s +:+ repeat_nat s k
  end.

Definition str_mul (s : string) (n : Z) : string := repeat_nat s (Z.to_nat n).

(** [sep.join(parts)] *)
Fixpoint join (sep : string) (parts : list string) : string :=
  match parts with
  | [] => ""
  | [p] => p
  | p :: rest => p +:+ sep +:+ join sep rest
  end.

Definition code (c : ascii) : N := N_of_ascii c.

(** Line boundaries of [str.splitlines] among the code points below 256:
    LF, VT, FF, CR, FS, GS, RS and NEL. *)
Definition is_linebreak (c : ascii) : bool :=
  let n := code c in
  ((10 <=? n) && (n <=? 13) || (28 <=? n) && (n <=? 30) || (n =? 133))%N.

Definition is_cr (c : ascii) : bool := (code c =? 13)%N.
Definition is_lf (c : ascii) : bool := (code c =? 10)%N.

(** [str.splitlines()]: the lines without their terminators; CR LF is one
    terminator; a terminator at the end of the text opens no further line.
    [cur] holds the characters of the line being read, last one first. *)
Fixpoint splitlines_from (cur : string) (s : string) : list string :=
  match s with
  | EmptyString =>
      match cur with
      | EmptyString => []
      | _ => [String.rev cur]
      end
  | String c rest =>
      if is_linebreak c then
        match rest with
        | String d rest' =>
            if is_cr c && is_lf d
            then String.rev cur :: splitlines_from "" rest'
            else String.rev cur :: splitlines_from "" rest
        | EmptyString => [String.rev cur]
        end
      else splitlines_from (String c cur) rest
  end.

Definition splitlines (s : string) : list string := splitlines_from "" s.

(** Characters matched by [\s] in a [str] pattern, below 256. *)
Definition is_space (c : ascii) : bool :=
  let n := code c in
  ((9 <=? n) && (n <=? 13) || (28 <=? n) && (n <=? 32)
   || (n =? 133) || (n =? 160))%N.

Fixpoint lstrip_space (s : string) : string :=
  match s with
  | String c rest => if is_space c then lstrip_space rest else s
  | EmptyString => s
  end.

(** [s.startswith(p)], returning what follows the prefix. *)
Fixpoint strip_prefix (p s : string) : option string :=
  match p, s with
  | EmptyString, _ => Some s
  | String a p', String b s' =>
      if Ascii.eqb a b then strip_prefix p' s' else None
  | String _ _, EmptyString => None
  end.

End Py.

(** ** The activity indicator *)

(** The specification's formula for the two run lengths of the glyph at a
    tick, kept apart from the code's own computation below. *)
Definition spec_before (tick width : Z) : Z :=
  let cycle := tick / width in
  if Z.even cycle then tick mod width else width - (tick mod width).

Definition spec_after (tick width : Z) : Z := width - spec_before tick width.

(** [get_activity_indicator(count, spaces)]; [None] stands for the
    [ZeroDivisionError] raised by [count // spaces] when [spaces] is 0. *)
Definition get_activity_indicator (count spaces : Z) : option string :=
  if spaces =? 0 then None
  else
    let cycle := count / spaces in
    let before :=
      if cycle mod 2 =? 0 then count mod spaces
      else spaces - (count mod spaces) in
    let after := spaces - before in
    Some ("[" +:+ Py.str_mul " " before +:+ "=" +:+ Py.str_mul " " after +:+ "]").

(** ** Values, response records and events *)

(** The Python values that settings and environments hold.  [VObj] is an
    object the model does not look into (a module, a function), named by its
    [repr]. *)
Inductive PyVal :=
| VNone
| VBool (b : bool)
| VInt (z : Z)
| VStr (s : string)
| VObj (repr : string).

Abbreviation namespace := (gmap string PyVal).

(** Truth value of an object, as tested by [if x:]. *)
Definition truthy (v : PyVal) : bool :=
  match v with
  | VNone => false
  | VBool b => b
  | VInt z => negb (z =? 0)
  | VStr s => negb (String.eqb s "")
  | VObj _ => true
  end.

(** [str(x)] *)
Definition py_str (v : PyVal) : string :=
  match v with
  | VNone => "None"
  | VBool true => "True"
  | VBool false => "False"
  | VInt z => pretty z
  | VStr s => s
  | VObj r => r
  end.

(** A record of the pool: [request], [response], [error], [ordering].
    [response] and [error] are [None] when absent. *)
Record Response := mkResponse {
  request : string;
  response : option string;
  error : option string;
  ordering : Z
}.

(** [if r.error]: an error that is present and not the empty string. *)
Definition has_error (r : Response) : bool :=
  match error r with
  | Some e => negb (String.eqb e "")
  | None => false
  end.

(** The callbacks handed to [sublime.set_timeout] and
    [sublime.set_timeout_async]. *)
Inductive Callback :=
| CbRun (count : Z)
| CbPoolRun
| CbGather (count : Z).

Inductive Event :=
| SetStatus (key value : string)
| ErrorMessage (msg : string)
| SetTimeout (cb : Callback) (delay_ms : Z)
| SetTimeoutAsync (cb : Callback) (delay_ms : Z)
| ShowActivity (pending : list string) (count : Z) (activity : string)
| HandleResponse (r : Response) (num_requests : Z)
| HandleError (r : Response) (num_requests : Z)
| HandleResponses (responses : list Response)
| HandleErrors (responses : list Response)
| GetRequests
| MakeRequests (requests : list string) (env : option namespace)
| NewPool (requests : list string) (env : option namespace) (max_workers : Z)
| Raised (exn : string).

Definition REFRESH_MS : Z := 200.
Definition ACTIVITY_SPACES : Z := 9.
Definition MAX_WORKERS : Z := 10.

(** ** Hooks with a body *)

(** ['{}\n{}'.format(r.request, r.error)] for a record that has an error. *)
Definition format_error (r : Response) : string :=
  request r +:+ Py.NL +:+ default "None" (error r).

(** [handle_errors(responses)], the mixin's own body. *)
Definition handle_errors (responses : list Response) : list Event :=
  let errors := map format_error (filter (λ r, has_error r = true) responses) in
  match errors with
  | [] => []
  | _ => [ErrorMessage (Py.join (Py.NL +:+ Py.NL) errors)]
  end.

(** ** Gathering responses *)

(** [list.sort(key=lambda response: response.ordering)]: ascending and
    stable. *)
Fixpoint insert_by_ordering (r : Response) (l : list Response) : list Response :=
  match l with
  | [] => [r]
  | x :: l' =>
      if ordering r <=? ordering x then r :: l
      else x :: insert_by_ordering r l'
  end.

Fixpoint sort_by_ordering (l : list Response) : list Response :=
  match l with
  | [] => []
  | r :: l' => insert_by_ordering r (sort_by_ordering l')
  end.

(** What one tick of [gather_responses] reads from the pool: the pending
    requests, the [is_done] flag as read before the drain, and the records
    that the drain of this tick pops from [pool.responses], in the order
    they are popped. *)
Record PoolTick := mkTick {
  pending_requests : list string;
  is_done : bool;
  completed : list Response
}.

(** The [while len(pool.responses)] loop: pop the first record, append it
    to [responses], call the two per-record hooks. *)
Fixpoint drain (num_requests : Z) (queue : list Response)
    (responses : list Response) : list Response * list Event :=
  match queue with
  | [] => (responses, [])
  | r :: queue' =>
      let responses := responses ++ [r] in
      let '(final, evs) := drain num_requests queue' responses in
      (final, HandleResponse r num_requests :: HandleError r num_requests :: evs)
  end.

(** [_show_activity_for_pending_requests(requests, count)] *)
Definition _show_activity_for_pending_requests (requests : list string)
    (count : Z) : option (list Event) :=
  activity ← get_activity_indicator count ACTIVITY_SPACES;
  Some [SetStatus "requester.activity" ("Requester " +:+ activity);
        ShowActivity requests count activity].

(** [gather_responses(pool, count, responses)].  [ticks] lists what the
    successive ticks read from the pool; the events of the ticks run so far
    are returned, and a tick scheduled beyond [ticks] has not run yet. *)
Fixpoint gather_responses (num_requests : Z) (ticks : list PoolTick)
    (count : Z) (responses : option (list Response)) : list Event :=
  match ticks with
  | [] => []
  | pool :: later =>
      match _show_activity_for_pending_requests (pending_requests pool) count with
      | None => [Raised "ZeroDivisionError"]
      | Some shown =>
          let done := is_done pool in
          let responses := default [] responses in
          let '(responses, handled) := drain num_requests (completed pool) responses in
          if done then
            let responses := sort_by_ordering responses in
            shown ++ handled
              ++ [HandleResponses responses; HandleErrors responses]
              ++ handle_errors responses
              ++ [SetStatus "requester.activity" ""]
          else
            shown ++ handled
              ++ [SetTimeout (CbGather (count + 1)) REFRESH_MS]
              ++ gather_responses num_requests later (count + 1) (Some responses)
      end
  end.

(** [make_requests(requests, env)] *)
Definition make_requests (requests : list string) (env : option namespace)
    : list Event :=
  [NewPool requests env MAX_WORKERS;
   SetTimeoutAsync CbPoolRun 0;
   SetTimeout (CbGather 0) 0].

(** ** The pre-flight loop *)

Definition REFRESH_MULTIPLIER : Z := 4.

(** [_run(thread, count)].  [alive] lists what [thread.is_alive()] answers
    at the successive ticks; [timeout_env] is the configured value,
    [requests] what [get_requests()] returns and [env] the value of
    [self._env] once the thread has finished.  The delay and the elapsed
    time are [x * 200 / 4], exact quotients. *)
Fixpoint _run (timeout_env : option Z) (requests : list string)
    (env : option namespace) (alive : list bool) (count : Z) : list Event :=
  match alive with
  | [] => []
  | is_alive :: later =>
      match get_activity_indicator (count / REFRESH_MULTIPLIER) ACTIVITY_SPACES with
      | None => [Raised "ZeroDivisionError"]
      | Some activity =>
          (if 0 <? count
           then [SetStatus "requester.activity" ("RequesterEnv " +:+ activity)]
           else [])
          ++
          if is_alive then
            let reschedule :=
              SetTimeout (CbRun (count + 1)) (REFRESH_MS / REFRESH_MULTIPLIER)
                :: _run timeout_env requests env later (count + 1) in
            match timeout_env with
            | Some timeout =>
                if timeout * 1000 <? count * REFRESH_MS / REFRESH_MULTIPLIER then
                  [ErrorMessage "Timeout Error: environment took too long to parse";
                   SetStatus "requester.activity" ""]
                else reschedule
            | None => reschedule
            end
          else
            [GetRequests; SetStatus "requester.activity" "";
             MakeRequests requests env]
            ++ make_requests requests env
      end
  end.

(** ** The view and the extraction of the environment sources *)

Record View := mkView {
  buffer : string;
  file_name : option string;
  settings : namespace
}.

(** [settings.get(key, default)] *)
Definition settings_get (s : namespace) (key : string) (dflt : PyVal) : PyVal :=
  default dflt (s !! key).

Definition settings_set (key : string) (v : PyVal) (view : View) : View :=
  mkView (buffer view) (file_name view) (<[key := v]> (settings view)).

Definition is_requester_view (view : View) : bool :=
  if truthy (settings_get (settings view) "requester.response_view" (VBool false))
  then true
  else if truthy (settings_get (settings view) "requester.test_view" (VBool false))
  then true
  else false.

Definition delimeter : string := "###env".

(** The [for line in ...] loop of [reset_env_string], with its [break]:
    the final [in_block] and [env_lines]. *)
Fixpoint scan_env_block (in_block : bool) (env_lines : list string)
    (lines : list string) : bool * list string :=
  match lines with
  | [] => (in_block, env_lines)
  | line :: rest =>
      if in_block then
        if String.eqb line delimeter then (false, env_lines)
        else scan_env_block true (env_lines ++ [line]) rest
      else
        if String.eqb line delimeter then scan_env_block true env_lines rest
        else scan_env_block false env_lines rest
  end.

(** [reset_env_string()]: the second [set] follows the first without an
    [else]. *)
Definition reset_env_string (view : View) : View :=
  if is_requester_view view then view
  else
    let '(in_block, env_lines) :=
      scan_env_block false [] (Py.splitlines (buffer view)) in
    let view :=
      if (length env_lines =? 0)%nat || in_block
      then settings_set "requester.env_string" VNone view
      else view in
    settings_set "requester.env_string" (VStr (Py.join Py.NL env_lines)) view.

(** [p.match(line)] for the pattern [\s*env_file\s*=.*]: white space, the
    name, white space, an equals sign; the rest of the line is free. *)
Definition matches_env_file (line : string) : bool :=
  match Py.strip_prefix "env_file" (Py.lstrip_space line) with
  | Some rest =>
      match Py.lstrip_space rest with
      | String c _ => Ascii.eqb c "="
      | EmptyString => false
      end
  | None => false
  end.

(** The first line that the pattern matches, where the loop breaks. *)
Fixpoint first_directive (lines : list string) : option string :=
  match lines with
  | [] => None
  | line :: rest =>
      if matches_env_file line then Some line else first_directive rest
  end.

(** An exception that leaves a source: an instance of [Exception], with
    the text that [str(e)] gives, which [except Exception] catches; or one
    that is not, such as [SystemExit] and [KeyboardInterrupt], which only a
    bare [except] catches. *)
Inductive PyExn :=
| Exn (msg : string)
| BaseExn (name : string).

(** How a call ends: by returning a value, or left by an exception that
    nothing in its body caught. *)
Inductive Completion (A : Type) :=
| Returned (a : A)
| Escaped (e : PyExn).

Arguments Returned {A} a.
Arguments Escaped {A} e.

(** What the model takes from the Python runtime and from [os.path].
    [run_code src globals] runs a source in a dictionary of globals and
    gives the dictionary as the run leaves it, with the exception when one
    was raised.  [new_module name] is the dictionary of a module made by
    [imp.new_module].  [load_source name path old] is [imp.load_source],
    [old] being the entry of [sys.modules] under [name]: the dictionary of
    the loaded module, or the exception.  Of [sys.modules] the runtime is
    shown that one entry; what a source reads from the other entries, or
    adds to them by an import, is not described. *)
Class Runtime := {
  run_code : PyVal → namespace → namespace * option PyExn;
  new_module : string → namespace;
  load_source : string → PyVal → option namespace → namespace + PyExn;
  path_isabs : string → bool;
  path_dirname : string → string;
  path_join : string → string → string
}.

Definition builtins : PyVal := VObj "builtins".

Section Mixin.
Context {R : Runtime}.

(** [exec(src, globals)]: a dictionary without [__builtins__] is given the
    key before the source runs. *)
Definition exec (src : PyVal) (globals : namespace) : namespace * option PyExn :=
  match globals !! "__builtins__" with
  | Some _ => run_code src globals
  | None => run_code src (<["__builtins__" := builtins]> globals)
  end.

(** [reset_env_file()]: the bare [except] swallows whatever the line
    raises; a relative path in a view without a file name leaves the
    setting as it was. *)
Definition reset_env_file (view : View) : View :=
  if is_requester_view view then view
  else
    let scope : namespace :=
      match first_directive (Py.splitlines (buffer view)) with
      | Some line => fst (exec (VStr line) ∅)
      | None => ∅
      end in
    let env_file := default VNone (scope !! "env_file") in
    if truthy env_file then
      let env_file := py_str env_file in
      if path_isabs env_file then
        settings_set "requester.env_file" (VStr env_file) view
      else
        match file_name view with
        | Some file_path =>
            if negb (String.eqb file_path "") then
              settings_set "requester.env_file"
                (VStr (path_join (path_dirname file_path) env_file)) view
            else view
        | None => view
        end
    else settings_set "requester.env_file" VNone view.

(** ** Evaluating the environment *)

(** [env_dict or None] *)
Definition or_None (env_dict : namespace) : option namespace :=
  if decide (env_dict = ∅) then None else Some env_dict.

(** [get_env()]: how the call ends, with the value returned; the reports
    shown; and the entry of [sys.modules] afterwards.  The two handlers are
    [except Exception]: an exception of the block or of the file that is
    not an [Exception] leaves [get_env] at that point. *)
Definition get_env (s : namespace) (sys_modules : gmap string namespace)
    : Completion (option namespace) * list Event * gmap string namespace :=
  let sys_modules := delete "requester.env" sys_modules in
  let env_dict : namespace := ∅ in
  let env_string := settings_get s "requester.env_string" VNone in
  let block : Completion (namespace * list Event) :=
    if truthy env_string then
      let '(ns, exn) := exec env_string (new_module "requester.env") in
      match exn with
      | Some (Exn e) =>
          Returned (env_dict, [ErrorMessage ("EnvBlock Error:" +:+ Py.NL +:+ e)])
      | Some (BaseExn name) => Escaped (BaseExn name)
      | None => Returned (ns, [])
      end
    else Returned (env_dict, []) in
  match block with
  | Escaped e => (Escaped e, [], sys_modules)
  | Returned (env_dict, shown) =>
      let env_file := settings_get s "requester.env_file" VNone in
      if truthy env_file then
        match load_source "requester.env" env_file
                (sys_modules !! "requester.env") with
        | inr (Exn e) =>
            (Returned (or_None env_dict),
             shown ++ [ErrorMessage ("EnvFile Error:" +:+ Py.NL +:+ e)],
             sys_modules)
        | inr (BaseExn name) => (Escaped (BaseExn name), shown, sys_modules)
        | inl env_dict_ =>
            (Returned (or_None (env_dict_ ∪ env_dict)), shown,
             <["requester.env" := env_dict_]> sys_modules)
        end
      else (Returned (or_None env_dict), shown, sys_modules)
  end.

End Mixin.

(** ** A runtime to run the examples

    [os.path] as [posixpath], and Python restricted to sources made of
    assignments [NAME = LITERAL], one per line, the literal being a decimal
    integer or a string in single quotes without quote or backslash.  Any
    other source is refused as a whole, like a source that does not
    compile (a [SyntaxError], which is an [Exception]); the examples use
    sources on which this is what Python does. *)

Module Toy.

Definition slash : ascii := "/"%char.

Definition isabs (s : string) : bool :=
  match s with
  | String c _ => Ascii.eqb c slash
  | EmptyString => false
  end.

Fixpoint all_slashes (s : string) : bool :=
  match s with
  | String c rest => Ascii.eqb c slash && all_slashes rest
  | EmptyString => true
  end.

Fixpoint lstrip_slashes (s : string) : string :=
  match s with
  | String c rest => if Ascii.eqb c slash then lstrip_slashes rest else s
  | EmptyString => s
  end.

(** On the reversed path: what is left from the last slash on. *)
Fixpoint from_slash (s : string) : string :=
  match s with
  | String c rest => if Ascii.eqb c slash then s else from_slash rest
  | EmptyString => s
  end.

(** [posixpath.dirname]: the head up to the last slash, without trailing
    slashes unless it is made of slashes only. *)
Definition dirname (p : string) : string :=
  let head := from_slash (String.rev p) in
  if all_slashes head then String.rev head
  else String.rev (lstrip_slashes head).

Definition ends_with_slash (s : string) : bool :=
  match String.rev s with
  | String c _ => Ascii.eqb c slash
  | EmptyString => false
  end.

(** [posixpath.join(a, b)] *)
Definition join (a b : string) : string :=
  if isabs b then b
  else if String.eqb a "" || ends_with_slash a then a +:+ b
  else a +:+ "/" +:+ b.

Definition is_digit (c : ascii) : bool :=
  let n := Py.code c in ((48 <=? n) && (n <=? 57))%N.

Definition is_name_start (c : ascii) : bool :=
  let n := Py.code c in
  ((65 <=? n) && (n <=? 90) || (97 <=? n) && (n <=? 122) || (n =? 95))%N.

Definition is_name_char (c : ascii) : bool := is_name_start c || is_digit c.

Definition is_blank (c : ascii) : bool :=
  let n := Py.code c in ((n =? 32) || (n =? 9))%N.

Definition keywords : list string :=
  ["False"; "None"; "True"; "and"; "as"; "assert"; "break"; "class";
   "continue"; "def"; "del"; "elif"; "else"; "except"; "finally"; "for";
   "from"; "global"; "if"; "import"; "in"; "is"; "lambda"; "nonlocal";
   "not"; "or"; "pass"; "raise"; "return"; "try"; "while"; "with"; "yield"].

(** The longest prefix of name characters, and what follows it. *)
Fixpoint span_name (s : string) : string * string :=
  match s with
  | String c rest =>
      if is_name_char c
      then let '(name, tail) := span_name rest in (String c name, tail)
      else ("", s)
  | EmptyString => ("", "")
  end.

Fixpoint lstrip_blank (s : string) : string :=
  match s with
  | String c rest => if is_blank c then lstrip_blank rest else s
  | EmptyString => s
  end.

Definition rstrip_blank (s : string) : string :=
  String.rev (lstrip_blank (String.rev s)).

(** A run of digits read as a decimal number. *)
Fixpoint digits_value (acc : Z) (s : string) : option Z :=
  match s with
  | String c rest =>
      if is_digit c
      then digits_value (10 * acc + Z.of_N (Py.code c) - 48) rest
      else None
  | EmptyString => Some acc
  end.

Fixpoint plain_chars (s : string) : bool :=
  match s with
  | String c rest =>
      negb (Ascii.eqb c "'" || Ascii.eqb c "\" || Py.is_linebreak c)
      && plain_chars rest
  | EmptyString => true
  end.

Definition literal (s : string) : option PyVal :=
  match s with
  | String c rest =>
      if Ascii.eqb c "'" then
        match String.rev rest with
        | String q inner =>
            if Ascii.eqb q "'" && plain_chars inner
            then Some (VStr (String.rev inner))
            else None
        | EmptyString => None
        end
      else if Ascii.eqb c "0" then
        match rest with
        | EmptyString => Some (VInt 0)
        | _ => None
        end
      else VInt <$> digits_value 0 s
  | EmptyString => None
  end.

(** One line [NAME = LITERAL], starting in the first column. *)
Definition assignment (line : string) : option (string * PyVal) :=
  let '(name, tail) := span_name line in
  match name with
  | String c _ =>
      if is_name_start c && negb (bool_decide (name ∈ keywords)) then
        match lstrip_blank tail with
        | String e value =>
            if Ascii.eqb e "="
            then v ← literal (rstrip_blank (lstrip_blank value)); Some (name, v)
            else None
        | EmptyString => None
        end
      else None
  | EmptyString => None
  end.

Fixpoint split_lf (cur : string) (s : string) : list string :=
  match s with
  | String c rest =>
      if Py.is_lf c then String.rev cur :: split_lf "" rest
      else split_lf (String c cur) rest
  | EmptyString => [String.rev cur]
  end.

Definition is_blank_line (line : string) : bool :=
  String.eqb (lstrip_blank line) "".

(** The assignments of a source, when every line that is not blank is one. *)
Definition program (src : string) : option (list (string * PyVal)) :=
  mapM assignment (filter (λ l, is_blank_line l = false) (split_lf "" src)).

Definition assign (ns : namespace) (b : string * PyVal) : namespace :=
  <[b.1 := b.2]> ns.

Definition run (src : PyVal) (globals : namespace) : namespace * option PyExn :=
  match src with
  | VStr code =>
      match program code with
      | Some bindings => (foldl assign globals bindings, None)
      | None => (globals, Some (Exn "invalid syntax"))
      end
  | _ =>
      (globals, Some (Exn "exec() arg 1 must be a string, bytes or code object"))
  end.

Definition module_dict (name : string) : namespace :=
  {[ "__name__" := VStr name; "__doc__" := VNone ]}.

(** The files of the examples: a path and the text it holds. *)
Definition files : list (string * string) :=
  [("/home/u/env.py", "b = 3" +:+ Py.NL +:+ "c = 4" +:+ Py.NL);
   ("/home/u/bad.py", "b = ")].

Fixpoint read_file (fs : list (string * string)) (path : string) : option string :=
  match fs with
  | [] => None
  | (p, text) :: fs' => if String.eqb p path then Some text else read_file fs' path
  end.

(** Loading runs the text of the file in the dictionary of the module
    registered under the name, or of a new module. *)
Definition load (name : string) (path : PyVal) (old : option namespace)
    : namespace + PyExn :=
  match path with
  | VStr p =>
      match read_file files p with
      | Some text =>
          let globals :=
            <["__builtins__" := builtins]>
              (<["__file__" := VStr p]> (default (module_dict name) old)) in
          match run (VStr text) globals with
          | (ns, None) => inl ns
          | (_, Some e) => inr e
          end
      | None =>
          inr (Exn ("[Errno 2] No such file or directory: '" +:+ p +:+ "'"))
      end
  | _ => inr (Exn "invalid file")
  end.

Definition runtime : Runtime := {|
  run_code := run;
  new_module := module_dict;
  load_source := load;
  path_isabs := isabs;
  path_dirname := dirname;
  path_join := join
|}.

End Toy.

(** ** Reading a trace *)

(** The tick at which the pre-flight loop gives up for a timeout of
    [timeout] seconds: the first count whose 50 ms steps exceed it. *)
Definition abort_tick (timeout : Z) : Z := Z.max 0 (20 * timeout + 1).

Definition timeout_report : list Event :=
  [ErrorMessage "Timeout Error: environment took too long to parse";
   SetStatus "requester.activity" ""].

Definition is_run_reschedule (e : Event) : bool :=
  match e with
  | SetTimeout (CbRun _) _ => true
  | _ => false
  end.

(** The events by which requests get executed. *)
Definition is_request_call (e : Event) : bool :=
  match e with
  | GetRequests | MakeRequests _ _ | NewPool _ _ _ => true
  | SetTimeout (CbGather _) _ | SetTimeoutAsync _ _ => true
  | _ => false
  end.

(** The calls of the two batch-level hooks. *)
Definition is_batch_call (e : Event) : bool :=
  match e with
  | HandleResponses _ | HandleErrors _ => true
  | _ => false
  end.

(** The two per-record calls made for a drained record. *)
Definition record_calls (num_requests : Z) (r : Response) : list Event :=
  [HandleResponse r num_requests; HandleError r num_requests].

(** The block that the specification asks for a record: the request, a
    line feed and the error, for an error that is there and not empty. *)
Definition error_block (r : Response) : option string :=
  match error r with
  | Some e => if decide (e = "") then None else Some (request r +:+ Py.NL +:+ e)
  | None => None
  end.

(** The order that the sort of the final tick establishes. *)
Definition by_ordering (x y : Response) : Prop := ordering x ≤ ordering y.

(** ** Settings of the examples *)


Definition block_and_file : namespace :=
  {[ "requester.env_string" := VStr ("a = 1" +:+ Py.NL +:+ "b = 2");
     "requester.env_file" := VStr "/home/u/env.py" ]}.

(** What [get_env] returns for [block_and_file] on the example runtime. *)
Definition example_env : option namespace :=
  match (@get_env Toy.runtime block_and_file ∅).1.1 with
  | Returned env => env
  | Escaped _ => None
  end.

(** ** The command entry point *)

Section Command.
Context {R : Runtime}.

(** The two resets that [run] makes before it starts the thread. *)
Definition extract (view : View) : View :=
  reset_env_file (reset_env_string view).

(** [_get_env()] on the attribute [self._env], [None] standing for an
    attribute that was never assigned: the assignment is made when
    [get_env] returns, and not when an exception leaves it. *)
Definition _get_env (outcome : Completion (option namespace))
    (_env : option (option namespace)) : option (option namespace) :=
  match outcome with
  | Returned env => Some env
  | Escaped _ => _env
  end.

(** The events of [_run] when [self._env] was never assigned: the loop is
    the same up to line 91, where reading the attribute for the call of
    [make_requests] raises, after [get_requests] and [set_status]. *)
Fixpoint without_env (trace : list Event) : list Event :=
  match trace with
  | [] => []
  | MakeRequests _ _ :: _ => [Raised "AttributeError"]
  | e :: rest => e :: without_env rest
  end.

(** [run(edit)]: the view after the two resets, what the thread running
    [_get_env] reports, [sys.modules] after it, and the events of the
    polling loop started at count 0.  [timeout_env] is the value read from
    the loaded settings and [_env] the attribute [self._env] as an earlier
    run of the command left it; the loop reads the attribute only once the
    thread is not alive. *)
Definition run (timeout_env : option Z) (requests : list string)
    (alive : list bool) (sys_modules : gmap string namespace)
    (_env : option (option namespace)) (view : View)
    : View * list Event * gmap string namespace * list Event :=
  let view := reset_env_file (reset_env_string view) in
  let '(outcome, reported, sys_modules) := get_env (settings view) sys_modules in
  let loop :=
    match _get_env outcome _env with
    | Some env => _run timeout_env requests env alive 0
    | None => without_env (_run timeout_env requests None alive 0)
    end in
  (view, reported, sys_modules, loop).

End Command.

(** ** The other commands (other_commands.py) *)

(** [sublime.Region(a, b)]; [Region(point)] is [Region(point, point)]. *)
Record Region := mkRegion { region_a : Z; region_b : Z }.

Definition region_at (point : Z) : Region := mkRegion point point.

(** The characters of [s] before position [n], and from position [n] on. *)
Definition text_before (n : Z) (s : string) : string :=
  String.substring 0 (Z.to_nat n) s.

Definition text_from (n : Z) (s : string) : string :=
  String.substring (Z.to_nat n) (String.length s - Z.to_nat n) s.

(** [view.erase(edit, region)] and [view.insert(edit, point, text)] on the
    text of the buffer. *)
Definition erase (r : Region) (s : string) : string :=
  text_before (region_a r) s +:+ text_from (region_b r) s.

Definition insert_text (point : Z) (text : string) (s : string) : string :=
  text_before point s +:+ text +:+ text_from point s.

(** [if point:] for a point that is [None] or a number. *)
Definition point_given (point : option Z) : bool :=
  match point with
  | Some p => negb (p =? 0)
  | None => false
  end.

Section ReplaceViewText.

(** What the editor makes of the selection when text is erased and when
    text is inserted. *)
Variable sel_after_erase : Region → list Region → list Region.
Variable sel_after_insert : Z → string → list Region → list Region.

(** [RequesterReplaceViewTextCommand.run(edit, text, point)] on the view
    and its selection. *)
Definition replace_view_text (text : string) (point : option Z)
    (view : View) (sel : list Region) : View * list Region :=
  let all := mkRegion 0 (Z.of_nat (String.length (buffer view))) in
  let erased := erase all (buffer view) in
  let sel := sel_after_erase all sel in
  let inserted := insert_text 0 text erased in
  let sel := sel_after_insert 0 text sel in
  let view := mkView inserted (file_name view) (settings view) in
  if point_given point
  then (view, [region_at (default 0 point)])
  else (view, sel).

End ReplaceViewText.

(** [RequesterCloseResponseTabsCommand.run()]: [sheets] lists what
    [sheet.view()] gives for the sheets of the window, [None] for a sheet
    without a view; the views closed, in order, and the sheets left. *)
Fixpoint close_response_tabs (sheets : list (option View))
    : list View * list (option View) :=
  match sheets with
  | [] => ([], [])
  | sheet :: rest =>
      let '(closed, kept) := close_response_tabs rest in
      match sheet with
      | Some view =>
          if truthy (settings_get (settings view) "requester.response_view"
                       (VBool false))
          then (view :: closed, kept)
          else (closed, sheet :: kept)
      | None => (closed, sheet :: kept)
      end
  end.

(** ** More readings of a trace and of a line *)

Definition is_gather_reschedule (e : Event) : bool :=
  match e with
  | SetTimeout (CbGather _) _ => true
  | _ => false
  end.

Definition is_error_message (e : Event) : bool :=
  match e with
  | ErrorMessage _ => true
  | _ => false
  end.

(** The record of a call of [handle_response]; of [handle_error]. *)
Definition handled_response (e : Event) : option Response :=
  match e with
  | HandleResponse r _ => Some r
  | _ => None
  end.

Definition handled_error (e : Event) : option Response :=
  match e with
  | HandleError r _ => Some r
  | _ => None
  end.

(** The status texts that show an indicator. *)
Definition is_indicator_status (e : Event) : bool :=
  match e with
  | SetStatus _ value => negb (String.eqb value "")
  | _ => false
  end.

(** The events of [_run] once the thread is found finished. *)
Definition start_requests (requests : list string) (env : option namespace)
    : list Event :=
  [GetRequests; SetStatus "requester.activity" "";
   MakeRequests requests env; NewPool requests env MAX_WORKERS;
   SetTimeoutAsync CbPoolRun 0; SetTimeout (CbGather 0) 0].

Fixpoint all_space (s : string) : bool :=
  match s with
  | String c rest => Py.is_space c && all_space rest
  | EmptyString => true
  end.

(** The lines that the pattern [\s*env_file\s*=.*] matches from their
    start, spelled out: white space, the name, white space, an equals
    sign, anything. *)
Definition directive_shape (line : string) : Prop :=
  ∃ ws1 ws2 rest,
    line = ws1 +:+ "env_file" +:+ ws2 +:+ "=" +:+ rest
    ∧ all_space ws1 = true ∧ all_space ws2 = true.

(** The text that [get_activity_indicator] formats from the two run
    lengths. *)
Definition glyph (before after : Z) : string :=
  "[" +:+ Py.str_mul " " before +:+ "=" +:+ Py.str_mul " " after +:+ "]".

Section Directive.
Context {R : Runtime}.

(** The value that [reset_env_file] stores under [requester.env_file] for
    a buffer and a file name, [None] when it stores nothing. *)
Definition env_file_update (buffer : string) (file_name : option string)
    : option PyVal :=
  let scope : namespace :=
    match first_directive (Py.splitlines buffer) with
    | Some line => fst (exec (VStr line) ∅)
    | None => ∅
    end in
  let env_file := default VNone (scope !! "env_file") in
  if truthy env_file then
    if path_isabs (py_str env_file) then Some (VStr (py_str env_file))
    else
      match file_name with
      | Some file_path =>
          if negb (String.eqb file_path "")
          then Some (VStr (path_join (path_dirname file_path) (py_str env_file)))
          else None
      | None => None
      end
  else Some VNone.

End Directive.

(** An event that neither starts requests nor reports an error. *)
Definition quiet (e : Event) : Prop :=
  is_request_call e = false ∧ is_error_message e = false.

(** [if view and view.settings().get('requester.response_view', False)]
    for a view that is there. *)
Definition is_response_view (view : View) : bool :=
  truthy (settings_get (settings view) "requester.response_view" (VBool false)).

(** The event that clears the indicator. *)
Definition indicator_cleared : Event := SetStatus "requester.activity" "".

(** A sheet that [RequesterCloseResponseTabsCommand] passes over. *)
Definition stays_open (sheet : option View) : bool :=
  match sheet with
  | Some view => negb (is_response_view view)
  | None => true
  end.

(** * Properties *)

(** ** Strings *)

Lemma length_append (a b : string) :
  String.length (a +:+ b) = (String.length a + String.length b)%nat.
Proof. induction a as [|c a IH]; simpl; [done | by rewrite IH]. Qed.

Lemma length_repeat_blank (n : nat) : String.length (Py.repeat_nat " " n) = n.
Proof.
  induction n as [|n IH]; [done|].
  change (S (String.length (Py.repeat_nat " " n)) = S n). by f_equal.
Qed.

(** ** The activity indicator *)

Lemma even_mod2 (z : Z) : Z.even z = (z mod 2 =? 0).
Proof.
  destruct (Z.even z) eqn:E.
  - apply Z.even_spec in E as [k ->]. symmetry. apply Z.eqb_eq.
    rewrite Z.mul_comm. apply Z_mod_mult.
  - symmetry. apply Z.eqb_neq. intros Hm.
    assert (Z.even z = true) as E'; [|congruence].
    apply Z.even_spec. exists (z / 2). pose proof (Z_div_mod_eq_full z 2). lia.
Qed.

Lemma indicator_unfold (count spaces : Z) :
  spaces ≠ 0 →
  get_activity_indicator count spaces =
    Some ("[" +:+ Py.str_mul " " (spec_before count spaces) +:+ "="
          +:+ Py.str_mul " " (spec_after count spaces) +:+ "]").
Proof.
  intros Hs. unfold get_activity_indicator, spec_after, spec_before.
  apply Z.eqb_neq in Hs. rewrite Hs. cbv zeta. by rewrite even_mod2.
Qed.

Lemma spec_before_range (count spaces : Z) :
  0 ≤ count → 0 < spaces → 0 ≤ spec_before count spaces ≤ spaces.
Proof.
  intros Hc Hs. unfold spec_before. cbv zeta.
  pose proof (Z.mod_pos_bound count spaces Hs).
  destruct (Z.even _); lia.
Qed.

Lemma spec_before_shift (tick width : Z) :
  0 < width → spec_before (tick + 2 * width) width = spec_before tick width.
Proof.
  intros Hw. unfold spec_before. cbv zeta.
  rewrite Z.div_add by lia. rewrite Z_mod_plus_full.
  replace (tick / width + 2) with (2 + tick / width) by lia.
  rewrite Z.even_add. by destruct (Z.even (tick / width)).
Qed.

Lemma spec_before_first_period (k width : Z) :
  0 < k < 2 * width → 0 < spec_before k width.
Proof.
  intros Hk. unfold spec_before. cbv zeta.
  destruct (decide (k < width)) as [Hlt|Hge].
  - rewrite Z.div_small, Z.mod_small by lia. simpl. lia.
  - assert (k / width = 1) as ->.
    { symmetry. apply (Z.div_unique k width 1 (k - width)); lia. }
    simpl. pose proof (Z.mod_pos_bound k width). lia.
Qed.

Lemma indicator_injective (a b : nat) (x y : string) :
  Py.repeat_nat " " a +:+ "=" +:+ x = Py.repeat_nat " " b +:+ "=" +:+ y → a = b.
Proof.
  revert b. induction a as [|a IH]; intros [|b]; simpl; intros Heq;
    [done | discriminate | discriminate |].
  f_equal. apply IH. by injection Heq.
Qed.

(** C7: for a tick that is not negative and a positive width, the
    indicator is an opening bracket, [before] blanks, the marker, [after]
    blanks and a closing bracket, with [before] and [after] given by the
    specification's formula (cycle = tick div width; before = tick mod
    width on an even cycle, width - tick mod width on an odd one; after =
    width - before); the glyph comes back after 2 * width ticks, and after
    no fewer ticks counted from tick 0. *)
Theorem C7_indicator_formula_and_period (tick width : Z) :
  0 ≤ tick → 0 < width →
  get_activity_indicator tick width =
    Some ("[" +:+ Py.str_mul " " (spec_before tick width) +:+ "="
          +:+ Py.str_mul " " (spec_after tick width) +:+ "]")
  ∧ get_activity_indicator (tick + 2 * width) width
    = get_activity_indicator tick width
  ∧ ∀ k, 0 < k < 2 * width →
      get_activity_indicator k width ≠ get_activity_indicator 0 width.
Proof.
  intros Ht Hw. split; [apply indicator_unfold; lia|]. split.
  - rewrite !indicator_unfold by lia. unfold spec_after.
    by rewrite spec_before_shift.
  - intros k Hk. rewrite !indicator_unfold by lia. intros Heq.
    injection Heq as Heq. apply indicator_injective in Heq.
    pose proof (spec_before_first_period k width Hk).
    assert (spec_before 0 width = 0) as H0.
    { unfold spec_before. cbv zeta. by rewrite Z.div_0_l, Z.mod_0_l by lia. }
    rewrite H0 in Heq. simpl in Heq. lia.
Qed.

Lemma C7_indicator_formula_and_period_witness :
  get_activity_indicator 10 9 = Some "[        = ]"
  ∧ get_activity_indicator (10 + 2 * 9) 9 = get_activity_indicator 10 9.
Proof.
  destruct (C7_indicator_formula_and_period 10 9) as (H1 & H2 & _); [lia | lia |].
  split; [exact H1 | exact H2].
Defined.

(** C10: for a count that is not negative and at least one space, the two
    runs of blanks have lengths that are not negative and add up to
    [spaces], and the string has [spaces + 3] characters. *)
Theorem C10_indicator_constant_width (count spaces : Z) :
  0 ≤ count → 1 ≤ spaces →
  ∃ before after s,
    0 ≤ before ∧ 0 ≤ after ∧ before + after = spaces
    ∧ get_activity_indicator count spaces = Some s
    ∧ s = "[" +:+ Py.str_mul " " before +:+ "=" +:+ Py.str_mul " " after +:+ "]"
    ∧ Z.of_nat (String.length s) = spaces + 3.
Proof.
  intros Hc Hs.
  pose proof (spec_before_range count spaces Hc ltac:(lia)) as Hb.
  eexists (spec_before count spaces), (spec_after count spaces), _.
  split; [lia|]. split; [unfold spec_after; lia|].
  split; [unfold spec_after; lia|].
  split; [apply indicator_unfold; lia|]. split; [done|].
  unfold Py.str_mul. rewrite !length_append. rewrite !length_repeat_blank.
  unfold spec_after. simpl String.length. lia.
Qed.

Lemma C10_indicator_constant_width_witness :
  ∃ before after s,
    0 ≤ before ∧ 0 ≤ after ∧ before + after = 9
    ∧ get_activity_indicator 13 9 = Some s
    ∧ s = "[" +:+ Py.str_mul " " before +:+ "=" +:+ Py.str_mul " " after +:+ "]"
    ∧ Z.of_nat (String.length s) = 9 + 3.
Proof. apply (C10_indicator_constant_width 13 9); lia. Defined.

(** ** The pre-flight loop *)

Lemma indicator_nine (count : Z) :
  ∃ activity, get_activity_indicator count ACTIVITY_SPACES = Some activity.
Proof. eexists. by apply indicator_unfold. Qed.

Lemma elapsed_exact (count : Z) :
  count * REFRESH_MS / REFRESH_MULTIPLIER = 50 * count.
Proof.
  unfold REFRESH_MS, REFRESH_MULTIPLIER.
  replace (count * 200) with (50 * count * 4) by lia. by apply Z.div_mul.
Qed.

Lemma abort_tick_exceeds (t : Z) :
  t * 1000 < abort_tick t * REFRESH_MS / REFRESH_MULTIPLIER.
Proof. rewrite elapsed_exact. unfold abort_tick. lia. Qed.

Lemma abort_tick_first (t c : Z) :
  0 ≤ c < abort_tick t → ¬ (t * 1000 < c * REFRESH_MS / REFRESH_MULTIPLIER).
Proof. rewrite elapsed_exact. unfold abort_tick. lia. Qed.

Lemma run_until_timeout (t : Z) requests env (n : nat) :
  ∀ (alive : list bool) (count : Z),
    Forall (λ b, b = true) alive →
    0 ≤ count → count + Z.of_nat n = abort_tick t →
    (n < length alive)%nat →
    ∃ pre,
      _run (Some t) requests env alive count = pre ++ timeout_report
      ∧ Forall (λ e, is_request_call e = false) pre
      ∧ length (filter (λ e, is_run_reschedule e = true) pre) = n.
Proof.
  induction n as [|n IH]; intros alive count Halive Hc Hn Hlen;
    destruct alive as [|a later]; simpl in Hlen; try lia;
    apply Forall_cons in Halive as [-> Hlater];
    destruct (indicator_nine (count / REFRESH_MULTIPLIER)) as [activity Hact];
    cbn [_run]; rewrite Hact.
  - assert (timeout_exceeded : (t * 1000 <? count * REFRESH_MS / REFRESH_MULTIPLIER) = true).
    { apply Z.ltb_lt. replace count with (abort_tick t) by lia.
      apply abort_tick_exceeds. }
    rewrite timeout_exceeded.
    eexists. split; [reflexivity|].
    destruct (0 <? count); split; by repeat constructor.
  - assert (in_time : (t * 1000 <? count * REFRESH_MS / REFRESH_MULTIPLIER) = false).
    { apply Z.ltb_ge. apply Z.nlt_ge. apply abort_tick_first. lia. }
    rewrite in_time.
    destruct (IH later (count + 1)) as (pre & -> & Hpre & Hcount);
      [done | lia | lia | lia |].
    eexists. split.
    { rewrite app_comm_cons, app_assoc. reflexivity. }
    split.
    + apply Forall_app. split; [|by apply Forall_cons].
      destruct (0 <? count); by repeat constructor.
    + rewrite filter_app, length_app.
      change (filter _ (SetTimeout ?cb ?d :: pre))
        with (SetTimeout cb d :: filter (λ e, is_run_reschedule e = true) pre).
      cbn [length]. rewrite Hcount. by destruct (0 <? count).
Qed.

(** C5: with [timeout_env] set to [t] seconds and a thread that is alive
    at every tick, the loop ends by reporting the timeout and clearing the
    indicator, no event before that fetches or starts the requests, and it
    has rescheduled itself [abort_tick t] times, which is the first tick
    whose elapsed time exceeds the timeout: one polling step of 50 ms past
    it, when the timeout is not negative. *)
Theorem C5_timeout_aborts_before_requests (t : Z) requests env (alive : list bool) :
  Forall (λ b, b = true) alive →
  (Z.to_nat (abort_tick t) < length alive)%nat →
  ∃ pre,
    _run (Some t) requests env alive 0 = pre ++ timeout_report
    ∧ Forall (λ e, is_request_call e = false) (pre ++ timeout_report)
    ∧ Z.of_nat (length (filter (λ e, is_run_reschedule e = true) pre)) = abort_tick t
    ∧ t * 1000 < abort_tick t * REFRESH_MS / REFRESH_MULTIPLIER
    ∧ (∀ c, 0 ≤ c < abort_tick t →
         ¬ (t * 1000 < c * REFRESH_MS / REFRESH_MULTIPLIER))
    ∧ (0 ≤ t →
         abort_tick t * REFRESH_MS / REFRESH_MULTIPLIER
         = t * 1000 + REFRESH_MS / REFRESH_MULTIPLIER).
Proof.
  intros Halive Hlen.
  assert (0 ≤ abort_tick t) as Hpos by (unfold abort_tick; lia).
  destruct (run_until_timeout t requests env (Z.to_nat (abort_tick t)) alive 0)
    as (pre & Hrun & Hpre & Hcount); [done | lia | lia | done |].
  exists pre. split; [done|]. split.
  { apply Forall_app. split; [done | by repeat constructor]. }
  split; [lia|]. split; [apply abort_tick_exceeds|].
  split; [apply abort_tick_first|].
  intros Ht. rewrite elapsed_exact. unfold abort_tick.
  change (REFRESH_MS / REFRESH_MULTIPLIER) with 50. lia.
Qed.

Lemma C5_timeout_aborts_before_requests_witness :
  ∃ pre,
    _run (Some 1) ["GET /"] None (replicate 22 true) 0 = pre ++ timeout_report
    ∧ Forall (λ e, is_request_call e = false) (pre ++ timeout_report)
    ∧ Z.of_nat (length (filter (λ e, is_run_reschedule e = true) pre)) = 21.
Proof.
  destruct (C5_timeout_aborts_before_requests 1 ["GET /"] None (replicate 22 true))
    as (pre & H1 & H2 & H3 & _).
  - by repeat constructor.
  - vm_compute. lia.
  - exists pre. split; [exact H1|]. split; [exact H2 | exact H3].
Defined.

(** ** Gathering responses *)

Lemma drain_spec (num_requests : Z) (queue : list Response) :
  ∀ responses,
    drain num_requests queue responses
    = (responses ++ queue, queue ≫= record_calls num_requests).
Proof.
  induction queue as [|r queue IH]; intros responses; simpl.
  - by rewrite app_nil_r.
  - rewrite IH. by rewrite <- app_assoc.
Qed.

(** C6, as the code has it: the drain appends the records to the collected
    list in the order they are popped and calls, for every one of them,
    [handle_response] and then [handle_error], each with the record and the
    number of requests, whether or not the record has an error. *)
Theorem C6_both_hooks_for_every_record (num_requests : Z)
    (queue responses : list Response) :
  drain num_requests queue responses
  = (responses ++ queue,
     queue ≫= λ r, [HandleResponse r num_requests; HandleError r num_requests]).
Proof. apply drain_spec. Qed.

(** C6, as stated, fails: a record without an error is handed to
    [handle_error] all the same. *)
Lemma C6_handle_error_without_error :
  let r := mkResponse "get('http://a')" (Some "200") None 0 in
  error r = None
  ∧ HandleError r 1 ∈ gather_responses 1 [mkTick [] true [r]] 0 None.
Proof. split; [done|]. vm_compute. do 3 right. left. Qed.

Lemma show_activity_events (requests : list string) (count : Z) :
  ∃ activity,
    _show_activity_for_pending_requests requests count
    = Some [SetStatus "requester.activity" ("Requester " +:+ activity);
            ShowActivity requests count activity].
Proof.
  destruct (indicator_nine count) as [activity Hact]. exists activity.
  unfold _show_activity_for_pending_requests. by rewrite Hact.
Qed.

Lemma batch_calls_cons (e : Event) (l : list Event) :
  filter (λ e, is_batch_call e = true) (e :: l)
  = if is_batch_call e then e :: filter (λ e, is_batch_call e = true) l
    else filter (λ e, is_batch_call e = true) l.
Proof. rewrite filter_cons. by destruct (is_batch_call e). Qed.

Lemma record_calls_no_batch (num_requests : Z) (queue : list Response) :
  filter (λ e, is_batch_call e = true) (queue ≫= record_calls num_requests) = [].
Proof. induction queue as [|r queue IH]; [done | exact IH]. Qed.

Lemma handle_errors_no_batch (responses : list Response) :
  filter (λ e, is_batch_call e = true) (handle_errors responses) = [].
Proof. unfold handle_errors. by destruct (map _ _). Qed.

Lemma gather_batch_calls (num_requests : Z) (pre : list PoolTick) (last : PoolTick) :
  Forall (λ t, is_done t = false) pre → is_done last = true →
  ∀ count responses,
    filter (λ e, is_batch_call e = true)
      (gather_responses num_requests (pre ++ [last]) count responses)
    = let all := default [] responses ++ concat (completed <$> (pre ++ [last])) in
      [HandleResponses (sort_by_ordering all); HandleErrors (sort_by_ordering all)].
Proof.
  intros Hpre Hlast. induction Hpre as [|tick pre Htick _ IH]; intros count responses.
  - cbn [app gather_responses].
    destruct (show_activity_events (pending_requests last) count) as [act ->].
    rewrite drain_spec, Hlast. cbn [fmap list_fmap concat]. rewrite app_nil_r.
    rewrite !filter_app, record_calls_no_batch, !batch_calls_cons.
    cbn [is_batch_call app]. by rewrite filter_app, handle_errors_no_batch.
  - cbn [app gather_responses].
    destruct (show_activity_events (pending_requests tick) count) as [act ->].
    rewrite drain_spec, Htick.
    rewrite !filter_app, record_calls_no_batch, !batch_calls_cons.
    cbn [is_batch_call app]. rewrite IH.
    cbn [fmap list_fmap concat default]. by rewrite app_assoc.
Qed.

Lemma insert_by_ordering_perm (r : Response) (l : list Response) :
  insert_by_ordering r l ≡ₚ r :: l.
Proof.
  induction l as [|x l IH]; simpl; [done|].
  destruct (ordering r <=? ordering x); [done|].
  rewrite IH. apply Permutation_swap.
Qed.

Lemma sort_by_ordering_perm (l : list Response) : sort_by_ordering l ≡ₚ l.
Proof.
  induction l as [|r l IH]; simpl; [done|].
  by rewrite insert_by_ordering_perm, IH.
Qed.

Lemma insert_by_ordering_sorted (r : Response) (l : list Response) :
  Sorted by_ordering l → Sorted by_ordering (insert_by_ordering r l).
Proof.
  induction 1 as [|x l Hl IH Hx]; simpl; [by repeat constructor|].
  destruct (ordering r <=? ordering x) eqn:Hle.
  - apply Z.leb_le in Hle. by repeat constructor.
  - apply Z.leb_gt in Hle. constructor; [done|].
    destruct Hx as [|y l Hxy]; simpl in *.
    + constructor. unfold by_ordering. lia.
    + destruct (ordering r <=? ordering y); constructor;
        unfold by_ordering in *; lia.
Qed.

Lemma sort_by_ordering_sorted (l : list Response) :
  Sorted by_ordering (sort_by_ordering l).
Proof.
  induction l as [|r l IH]; simpl; [constructor|].
  by apply insert_by_ordering_sorted.
Qed.

Lemma sorted_orderings (l : list Response) :
  Sorted by_ordering l → Sorted Z.le (ordering <$> l).
Proof.
  induction 1 as [|x l Hl IH Hx]; simpl; [constructor|].
  constructor; [done|]. destruct Hx; by constructor.
Qed.

Lemma sorted_indices (a n : nat) : Sorted Z.le (Z.of_nat <$> seq a n).
Proof.
  revert a. induction n as [|n IH]; intros a; simpl; [constructor|].
  constructor; [apply IH|]. destruct n; simpl; constructor. lia.
Qed.

(** C1: when the ticks up to the first one that reads [is_done] drain, in
    whatever order, one record for each of the ordering indices 0..N-1, the
    two batch-level hooks are called once each, with one and the same list:
    the N drained records in ascending order of their ordering index. *)
Theorem C1_final_batch_in_request_order (N : nat) (num_requests : Z)
    (pre : list PoolTick) (last : PoolTick) :
  Forall (λ t, is_done t = false) pre → is_done last = true →
  ordering <$> concat (completed <$> (pre ++ [last])) ≡ₚ Z.of_nat <$> seq 0 N →
  ∃ sorted,
    filter (λ e, is_batch_call e = true)
      (gather_responses num_requests (pre ++ [last]) 0 None)
    = [HandleResponses sorted; HandleErrors sorted]
    ∧ length sorted = N
    ∧ ordering <$> sorted = Z.of_nat <$> seq 0 N
    ∧ sorted ≡ₚ concat (completed <$> (pre ++ [last])).
Proof.
  intros Hpre Hlast Hone.
  exists (sort_by_ordering (concat (completed <$> (pre ++ [last])))).
  pose proof (sort_by_ordering_perm (concat (completed <$> (pre ++ [last])))) as Hperm.
  assert (ordering <$> sort_by_ordering (concat (completed <$> (pre ++ [last])))
          = Z.of_nat <$> seq 0 N) as Hidx.
  { apply (Sorted_unique Z.le).
    - apply sorted_orderings, sort_by_ordering_sorted.
    - apply sorted_indices.
    - by rewrite Hperm. }
  split; [by rewrite gather_batch_calls|]. split; [|done].
  rewrite <- (length_fmap ordering), Hidx, length_fmap. apply length_seq.
Qed.

Lemma C1_final_batch_in_request_order_witness :
  let r0 := mkResponse "get('http://a')" (Some "200") None 0 in
  let r1 := mkResponse "get('http://b')" None (Some "Timeout") 1 in
  let r2 := mkResponse "get('http://c')" (Some "404") None 2 in
  let ticks := [mkTick ["a"; "b"; "c"] false [r2]; mkTick ["a"; "b"] false []]
               ++ [mkTick [] true [r1; r0]] in
  ∃ sorted,
    filter (λ e, is_batch_call e = true) (gather_responses 3 ticks 0 None)
    = [HandleResponses sorted; HandleErrors sorted]
    ∧ length sorted = 3%nat
    ∧ ordering <$> sorted = [0; 1; 2].
Proof.
  intros r0 r1 r2 ticks.
  destruct (C1_final_batch_in_request_order 3 3
              [mkTick ["a"; "b"; "c"] false [r2]; mkTick ["a"; "b"] false []]
              (mkTick [] true [r1; r0]))
    as (sorted & H1 & H2 & H3 & _).
  - by repeat constructor.
  - reflexivity.
  - simpl. etrans; [apply perm_swap|]. etrans; [apply perm_skip, perm_swap|].
    apply perm_swap.
  - exists sorted. split; [exact H1|]. split; [exact H2 | exact H3].
Defined.

(** ** The default error report *)

Lemma error_block_filter (l : list Response) :
  map format_error (filter (λ r, has_error r = true) l) = omap error_block l.
Proof.
  induction l as [|r l IH]; [done|].
  rewrite filter_cons. cbn [omap list_omap]. rewrite <- IH.
  destruct r as [rq rs [e|] o]; unfold has_error, error_block; cbn [error request].
  - destruct (decide (e = "")) as [->|Hne]; [done|].
    apply String.eqb_neq in Hne. by rewrite Hne.
  - done.
Qed.

(** C9, as the code has it: the records whose error is present and not
    the empty string are each formatted as the request, a line feed and the
    error; the blocks, separated by blank lines, form one report; nothing
    is presented when no record has such an error. *)
Theorem C9_errors_joined_in_one_report (responses : list Response) :
  handle_errors responses =
    match omap error_block responses with
    | [] => []
    | blocks => [ErrorMessage (Py.join (Py.NL +:+ Py.NL) blocks)]
    end.
Proof.
  unfold handle_errors. rewrite error_block_filter. cbv zeta.
  by destruct (omap error_block responses).
Qed.

(** C9, as stated, fails: a record whose error is the empty string has an
    error that is not null, and nothing is presented for it. *)
Lemma C9_empty_error_not_reported :
  let r := mkResponse "get('http://a')" None (Some "") 0 in
  error r ≠ None ∧ handle_errors [r] = [].
Proof. split; [done | reflexivity]. Qed.

(** ** The extraction of the environment sources *)

Lemma reset_env_string_setting (view : View) :
  is_requester_view view = false →
  settings (reset_env_string view) !! "requester.env_string"
  = Some (VStr (Py.join Py.NL
       (scan_env_block false [] (Py.splitlines (buffer view))).2)).
Proof.
  intros Hview. unfold reset_env_string. rewrite Hview.
  destruct (scan_env_block _ _ _) as [in_block env_lines]. simpl.
  by rewrite lookup_insert_eq.
Qed.

(** The inline source that [reset_env_string] leaves depends on the text
    alone, whatever the settings held before. *)
Lemma reset_env_string_forgets (v1 v2 : View) :
  is_requester_view v1 = false → is_requester_view v2 = false →
  buffer v1 = buffer v2 →
  settings (reset_env_string v1) !! "requester.env_string"
  = settings (reset_env_string v2) !! "requester.env_string".
Proof.
  intros H1 H2 Hbuf. rewrite !reset_env_string_setting by done. by rewrite Hbuf.
Qed.

(** C2: at a text made of one delimiter line followed by a content line,
    the loop ends inside the block with one collected line, and the setting
    is left holding the collected text, not null. *)
Theorem C2_unterminated_block_is_kept :
  let view := mkView ("###env" +:+ Py.NL +:+ "a = 1") None ∅ in
  Py.splitlines (buffer view) = ["###env"; "a = 1"]
  ∧ scan_env_block false [] (Py.splitlines (buffer view)) = (true, ["a = 1"])
  ∧ settings (reset_env_string view) !! "requester.env_string"
    = Some (VStr "a = 1").
Proof. repeat split; vm_compute; reflexivity. Qed.

Section Extraction.
Context {R : Runtime}.

(** With a file behind the buffer, the path that [reset_env_file] leaves
    depends on the text and on that file's name alone. *)
Lemma reset_env_file_forgets (v1 v2 : View) (file_path : string) :
  is_requester_view v1 = false → is_requester_view v2 = false →
  buffer v1 = buffer v2 →
  file_name v1 = Some file_path → file_name v2 = Some file_path →
  file_path ≠ "" →
  settings (reset_env_file v1) !! "requester.env_file"
  = settings (reset_env_file v2) !! "requester.env_file".
Proof.
  intros H1 H2 Hbuf Hf1 Hf2 Hne. unfold reset_env_file.
  rewrite H1, H2, Hbuf, Hf1, Hf2. apply String.eqb_neq in Hne. rewrite Hne.
  cbv zeta. simpl negb. cbv iota.
  destruct (truthy _); [destruct (path_isabs _)|]; simpl;
    by rewrite !lookup_insert_eq.
Qed.

End Extraction.

(** C8: in a view without a file, the text [env_file = 'env.py'] leaves
    no path when the settings are new, and leaves the path that an earlier
    run on another text had set when the settings are those of that run. *)
Theorem C8_relative_directive_keeps_old_env_file :
  let extract view := @reset_env_file Toy.runtime (reset_env_string view) in
  let text := "env_file = 'env.py'" in
  let earlier := extract (mkView "env_file = '/srv/env.py'" None ∅) in
  let fresh := mkView text None ∅ in
  let reused := mkView text None (settings earlier) in
  settings earlier !! "requester.env_file" = Some (VStr "/srv/env.py")
  ∧ settings (extract fresh) !! "requester.env_file" = None
  ∧ settings (extract reused) !! "requester.env_file" = Some (VStr "/srv/env.py").
Proof. repeat split; vm_compute; reflexivity. Qed.

(** ** Evaluating the environment *)

Section Evaluation.
Context {R : Runtime}.



Lemma or_None_bound (env_dict : namespace) (k : string) :
  is_Some (env_dict !! k) → or_None env_dict = Some env_dict.
Proof.
  intros [v Hv]. unfold or_None. case_decide as Hempty; [|done].
  rewrite Hempty in Hv. by rewrite lookup_empty in Hv.
Qed.


(** An exception of the block that is not an [Exception] leaves [get_env]:
    nothing is reported and the file is not loaded. *)
Lemma get_env_block_escapes (s : namespace)
    (sys_modules : gmap string namespace) (name : string) :
  truthy (settings_get s "requester.env_string" VNone) = true →
  (exec (settings_get s "requester.env_string" VNone)
     (new_module "requester.env")).2 = Some (BaseExn name) →
  get_env s sys_modules
  = (Escaped (BaseExn name), [], delete "requester.env" sys_modules).
Proof.
  intros Hs He. unfold get_env. cbv zeta. rewrite Hs.
  destruct (exec _ _) as [ns exn]. simpl in He. by subst exn.
Qed.


(** C4, as the code has it: when the inline source binds [a] to 1 and [b]
    to 2 in the dictionary it runs in, and the module loaded from the file
    binds [b] to 3 and [c] to 4 and not [a], [get_env] returns the
    dictionary of the file's module laid over that of the inline module:
    [a] is 1, [b] is 3, [c] is 4, and the names that the two namespaces
    hold besides, [__builtins__] among them, stay in the result. *)
Theorem C4_file_over_inline_with_implicit_names (s : namespace)
    (sys_modules : gmap string namespace) (file_ns : namespace) :
  let env_string := settings_get s "requester.env_string" VNone in
  let env_file := settings_get s "requester.env_file" VNone in
  truthy env_string = true →
  (∀ globals, run_code env_string globals
              = (<["b" := VInt 2]> (<["a" := VInt 1]> globals), None)) →
  truthy env_file = true →
  load_source "requester.env" env_file None = inl file_ns →
  file_ns !! "a" = None → file_ns !! "b" = Some (VInt 3) →
  file_ns !! "c" = Some (VInt 4) →
  ∃ env inline_ns,
    (get_env s sys_modules).1.1 = Returned (Some env)
    ∧ (exec env_string (new_module "requester.env")) = (inline_ns, None)
    ∧ env = file_ns ∪ inline_ns
    ∧ env !! "a" = Some (VInt 1) ∧ env !! "b" = Some (VInt 3)
    ∧ env !! "c" = Some (VInt 4)
    ∧ is_Some (env !! "__builtins__")
    ∧ env ≠ {[ "a" := VInt 1; "b" := VInt 3; "c" := VInt 4 ]}.
Proof.
  intros env_string env_file Hs Hrun Hf Hload Ha Hb Hc.
  assert (∃ inline_ns,
    exec env_string (new_module "requester.env") = (inline_ns, None)
    ∧ inline_ns !! "a" = Some (VInt 1)
    ∧ is_Some (inline_ns !! "__builtins__")) as (inline_ns & Hexec & Hia & Hbi).
  { unfold exec. destruct (new_module "requester.env" !! "__builtins__") eqn:Hold;
      rewrite Hrun; eexists; (split; [reflexivity|]); split;
      rewrite ?lookup_insert_ne, ?lookup_insert_eq by done; eauto. }
  assert (is_Some ((file_ns ∪ inline_ns) !! "__builtins__")) as Hbuiltins.
  { destruct Hbi as [v Hv]. destruct (file_ns !! "__builtins__") eqn:Hfb.
    - exists p. by apply lookup_union_Some_l.
    - exists v. by rewrite lookup_union_r. }
  exists (file_ns ∪ inline_ns), inline_ns.
  split.
  { unfold get_env. cbv zeta. fold env_string env_file.
    rewrite Hs, Hexec, Hf, lookup_delete_eq, Hload. simpl.
    by rewrite (or_None_bound _ "__builtins__"). }
  split; [done|]. split; [done|].
  split; [by rewrite lookup_union_r|].
  split; [by apply lookup_union_Some_l|].
  split; [by apply lookup_union_Some_l|].
  split; [done|].
  intros Heq. rewrite Heq in Hbuiltins. by destruct Hbuiltins as [v Hv].
Qed.

End Evaluation.

(** ** The evaluation run on the example runtime *)



(** C4, as stated, fails: the inline source binds [a] and [b], the file
    binds [b] and [c], and the result is not the mapping of [a], [b] and
    [c] alone: it holds the names of the module namespaces as well. *)
Lemma C4_result_keeps_implicit_names :
  Toy.program ("a = 1" +:+ Py.NL +:+ "b = 2")
    = Some [("a", VInt 1); ("b", VInt 2)]
  ∧ (Toy.read_file Toy.files "/home/u/env.py" ≫= Toy.program)
    = Some [("b", VInt 3); ("c", VInt 4)]
  ∧ (@get_env Toy.runtime block_and_file ∅).1.1 = Returned example_env
  ∧ example_env ≫= (.!! "a") = Some (VInt 1)
  ∧ example_env ≫= (.!! "b") = Some (VInt 3)
  ∧ example_env ≫= (.!! "c") = Some (VInt 4)
  ∧ example_env ≫= (.!! "__name__") = Some (VStr "requester.env")
  ∧ example_env ≫= (.!! "__builtins__") = Some builtins
  ∧ example_env ≠ Some {[ "a" := VInt 1; "b" := VInt 3; "c" := VInt 4 ]}.
Proof.
  do 8 (split; [vm_compute; reflexivity|]).
  intros Heq. apply (f_equal (λ o, o ≫= (.!! "__name__"))) in Heq.
  vm_compute in Heq. discriminate.
Qed.

Lemma C4_file_over_inline_with_implicit_names_witness :
  ∃ env,
    (@get_env Toy.runtime block_and_file ∅).1.1 = Returned (Some env)
    ∧ env !! "a" = Some (VInt 1) ∧ env !! "b" = Some (VInt 3)
    ∧ env !! "c" = Some (VInt 4)
    ∧ is_Some (env !! "__builtins__").
Proof.
  destruct (@C4_file_over_inline_with_implicit_names Toy.runtime block_and_file ∅
              (match Toy.load "requester.env" (VStr "/home/u/env.py") None with
               | inl ns => ns
               | inr _ => ∅
               end))
    as (env & inline_ns & Henv & _ & _ & Ha & Hb & Hc & Hbuiltins & _).
  - vm_compute. reflexivity.
  - intros globals. vm_compute. reflexivity.
  - vm_compute. reflexivity.
  - vm_compute. reflexivity.
  - vm_compute. reflexivity.
  - vm_compute. reflexivity.
  - vm_compute. reflexivity.
  - exists env. split; [exact Henv|]. split; [exact Ha|]. split; [exact Hb|].
    split; [exact Hc | exact Hbuiltins].
Defined.

(** * Further properties *)

(** ** The sweep of the indicator *)

Lemma spec_before_forth (t w : Z) : 0 ≤ t < w → spec_before t w = t.
Proof.
  intros Ht. unfold spec_before. cbv zeta.
  by rewrite Z.div_small, Z.mod_small by lia.
Qed.

Lemma spec_before_back (t w : Z) : w ≤ t < 2 * w → spec_before t w = 2 * w - t.
Proof.
  intros Ht. unfold spec_before. cbv zeta.
  assert (t / w = 1) as -> by (symmetry; apply (Z.div_unique t w 1 (t - w)); lia).
  assert (t mod w = t - w) as -> by (symmetry; apply (Z.mod_unique t w 1 (t - w)); lia).
  simpl. lia.
Qed.

Lemma spec_before_turn (w : Z) : 0 < w → spec_before (2 * w) w = 0.
Proof.
  intros Hw. replace (2 * w) with (0 + 2 * w) by lia.
  rewrite spec_before_shift by done. apply spec_before_forth. lia.
Qed.

Lemma indicator_glyph (count spaces : Z) :
  spaces ≠ 0 →
  get_activity_indicator count spaces
  = Some (glyph (spec_before count spaces) (spaces - spec_before count spaces)).
Proof. intros Hs. by rewrite indicator_unfold. Qed.

(** X1: within one period the way back mirrors the way forth: the glyph
    at tick [2 * spaces - count] is the glyph at tick [count]. *)
Theorem indicator_mirror (count spaces : Z) :
  0 < spaces → 0 ≤ count ≤ 2 * spaces →
  get_activity_indicator (2 * spaces - count) spaces
  = get_activity_indicator count spaces.
Proof.
  intros Hs Hc. rewrite !indicator_glyph by lia. do 2 f_equal.
  all: assert (spec_before (2 * spaces - count) spaces = spec_before count spaces)
    as ->; [|done].
  all: destruct (decide (count = 0)) as [->|];
    [rewrite Z.sub_0_r, spec_before_turn, spec_before_forth by lia; done|].
  all: destruct (decide (count = 2 * spaces)) as [->|];
    [rewrite Z.sub_diag, spec_before_turn, spec_before_forth by lia; done|].
  all: destruct (decide (count < spaces));
    [rewrite spec_before_back, spec_before_forth by lia; lia|].
  all: destruct (decide (count = spaces)) as [->|];
    [by replace (2 * spaces - spaces) with spaces by lia|].
  all: rewrite spec_before_forth, spec_before_back by lia; lia.
Qed.

Lemma indicator_mirror_witness :
  get_activity_indicator (2 * 9 - 4) 9 = get_activity_indicator 4 9.
Proof. apply indicator_mirror; lia. Defined.

Lemma spec_before_step (t w : Z) :
  0 ≤ t → 0 < w → Z.abs (spec_before (t + 1) w - spec_before t w) = 1.
Proof.
  intros Ht Hw. unfold spec_before. cbv zeta.
  pose proof (Z.mod_pos_bound t w Hw) as Hr.
  pose proof (Z_div_mod_eq_full t w) as Hq.
  destruct (decide (t mod w = w - 1)) as [Hlast|Hmid].
  - assert ((t + 1) / w = t / w + 1) as ->
      by (symmetry; apply (Z.div_unique (t + 1) w (t / w + 1) 0); lia).
    assert ((t + 1) mod w = 0) as ->
      by (symmetry; apply (Z.mod_unique (t + 1) w (t / w + 1) 0); lia).
    rewrite Z.even_add. simpl. rewrite Hlast.
    destruct (Z.even (t / w)); simpl; lia.
  - assert ((t + 1) / w = t / w) as ->
      by (symmetry; apply (Z.div_unique (t + 1) w (t / w) (t mod w + 1)); lia).
    assert ((t + 1) mod w = t mod w + 1) as ->
      by (symmetry; apply (Z.mod_unique (t + 1) w (t / w) (t mod w + 1)); lia).
    destruct (Z.even (t / w)); lia.
Qed.

(** X2: from one tick to the next the marker moves by one position,
    never more and never less, and stays within the [spaces] positions. *)
Theorem indicator_moves_one_position (count spaces : Z) :
  0 ≤ count → 0 < spaces →
  ∃ before before',
    get_activity_indicator count spaces = Some (glyph before (spaces - before))
    ∧ get_activity_indicator (count + 1) spaces
      = Some (glyph before' (spaces - before'))
    ∧ 0 ≤ before ≤ spaces ∧ 0 ≤ before' ≤ spaces
    ∧ Z.abs (before' - before) = 1.
Proof.
  intros Hc Hs.
  exists (spec_before count spaces), (spec_before (count + 1) spaces).
  rewrite !indicator_glyph by lia.
  split; [done|]. split; [done|].
  split; [apply spec_before_range; lia|].
  split; [apply spec_before_range; lia|].
  by apply spec_before_step.
Qed.

Lemma indicator_moves_one_position_witness :
  ∃ before before',
    get_activity_indicator 8 9 = Some (glyph before (9 - before))
    ∧ get_activity_indicator (8 + 1) 9 = Some (glyph before' (9 - before'))
    ∧ 0 ≤ before ≤ 9 ∧ 0 ≤ before' ≤ 9
    ∧ Z.abs (before' - before) = 1.
Proof. apply (indicator_moves_one_position 8 9); lia. Defined.

(** ** The pattern of the directive *)

Lemma lstrip_space_split (s : string) :
  ∃ ws, s = ws +:+ Py.lstrip_space s ∧ all_space ws = true.
Proof.
  induction s as [|c s (ws & Hs & Hws)]; [exists ""; split; reflexivity|].
  simpl. destruct (Py.is_space c) eqn:Hc.
  - exists (String c ws). split; [|by cbn [all_space]; rewrite Hc, Hws].
    change (String c s = String c (ws +:+ Py.lstrip_space s)). by f_equal.
  - exists "". split; reflexivity.
Qed.

Lemma lstrip_space_app (ws s : string) :
  all_space ws = true → Py.lstrip_space (ws +:+ s) = Py.lstrip_space s.
Proof.
  induction ws as [|c ws IH]; [done|]. simpl.
  intros [Hc Hws]%andb_prop. rewrite Hc. by apply IH.
Qed.

Lemma strip_prefix_Some (p s r : string) :
  Py.strip_prefix p s = Some r ↔ s = p +:+ r.
Proof.
  revert s. induction p as [|a p IH]; intros s; simpl.
  - split; [by intros [= ->] | by intros ->].
  - destruct s as [|b s]; [by split|].
    destruct (Ascii.eqb a b) eqn:Hab.
    + apply Ascii.eqb_eq in Hab as ->. rewrite IH.
      split; [by intros -> | by intros [= ->]].
    + apply Ascii.eqb_neq in Hab. split; [done | by intros [= -> _]].
Qed.

(** X3: [matches_env_file] accepts a line exactly when the line is white
    space, [env_file], white space, an equals sign and any rest, which is
    what the pattern of [reset_env_file] matches from the start of a
    line. *)
Theorem matches_env_file_shape (line : string) :
  matches_env_file line = true ↔ directive_shape line.
Proof.
  unfold matches_env_file, directive_shape. split.
  - destruct (lstrip_space_split line) as (ws1 & Hline & Hws1).
    destruct (Py.strip_prefix "env_file" (Py.lstrip_space line)) as [after|] eqn:Hp;
      [|done].
    apply strip_prefix_Some in Hp.
    destruct (lstrip_space_split after) as (ws2 & Hafter & Hws2).
    destruct (Py.lstrip_space after) as [|c rest]; [done|].
    intros ->%Ascii.eqb_eq. exists ws1, ws2, rest.
    split; [|done]. rewrite Hline at 1. rewrite Hp. rewrite Hafter at 1. done.
  - intros (ws1 & ws2 & rest & -> & Hws1 & Hws2).
    rewrite lstrip_space_app by done.
    change (Py.lstrip_space ("env_file" +:+ ws2 +:+ "=" +:+ rest))
      with ("env_file" +:+ ws2 +:+ "=" +:+ rest).
    assert (Py.strip_prefix "env_file" ("env_file" +:+ ws2 +:+ "=" +:+ rest)
            = Some (ws2 +:+ "=" +:+ rest)) as -> by by apply strip_prefix_Some.
    by rewrite lstrip_space_app.
Qed.

(** ** The environment block *)

Lemma scan_before_block (acc pre lines : list string) :
  Forall (λ l, l ≠ delimeter) pre →
  scan_env_block false acc (pre ++ lines) = scan_env_block false acc lines.
Proof.
  induction 1 as [|l pre Hl _ IH]; [done|]. simpl.
  apply String.eqb_neq in Hl. by rewrite Hl.
Qed.

Lemma scan_inside_block (body : list string) :
  Forall (λ l, l ≠ delimeter) body →
  ∀ acc,
    (∀ rest, scan_env_block true acc (body ++ delimeter :: rest)
             = (false, acc ++ body))
    ∧ scan_env_block true acc body = (true, acc ++ body).
Proof.
  induction 1 as [|l body Hl _ IH]; intros acc; simpl.
  - rewrite app_nil_r. split; [intros rest|]; done.
  - apply String.eqb_neq in Hl. rewrite Hl.
    destruct (IH (acc ++ [l])) as [IH1 IH2].
    rewrite <- !app_assoc in *. split; [intros rest; apply IH1 | apply IH2].
Qed.


Lemma scan_closed_block (pre body rest : list string) :
  Forall (λ l, l ≠ delimeter) pre → Forall (λ l, l ≠ delimeter) body →
  scan_env_block false [] (pre ++ delimeter :: body ++ delimeter :: rest)
  = (false, body).
Proof.
  intros Hpre Hbody. rewrite scan_before_block by done.
  cbn [scan_env_block]. rewrite String.eqb_refl.
  by destruct (scan_inside_block body Hbody []) as [-> _].
Qed.

(** X4: when the first delimiter line of the buffer is followed by lines
    and then by a second delimiter line, the inline source is set to the
    lines between the two, joined by line feeds; what comes before the
    first and after the second delimiter is left out. *)
Theorem reset_env_string_closed_block (view : View)
    (pre body rest : list string) :
  is_requester_view view = false →
  Py.splitlines (buffer view) = pre ++ delimeter :: body ++ delimeter :: rest →
  Forall (λ l, l ≠ delimeter) pre → Forall (λ l, l ≠ delimeter) body →
  settings (reset_env_string view) !! "requester.env_string"
  = Some (VStr (Py.join Py.NL body)).
Proof.
  intros Hview Hlines Hpre Hbody.
  by rewrite reset_env_string_setting, Hlines, scan_closed_block.
Qed.

Lemma reset_env_string_closed_block_witness :
  settings (reset_env_string
    (mkView ("get('a')" +:+ Py.NL +:+ "###env" +:+ Py.NL +:+ "a = 1" +:+ Py.NL
             +:+ "b = 2" +:+ Py.NL +:+ "###env" +:+ Py.NL +:+ "get('b')")
       None ∅)) !! "requester.env_string"
  = Some (VStr ("a = 1" +:+ Py.NL +:+ "b = 2")).
Proof.
  apply (reset_env_string_closed_block _ ["get('a')"] ["a = 1"; "b = 2"]
           ["get('b')"]).
  - reflexivity.
  - vm_compute. reflexivity.
  - repeat constructor. discriminate.
  - repeat constructor; discriminate.
Defined.

(** ** What the resets change *)

Lemma is_requester_view_set (key : string) (v : PyVal) (view : View) :
  key ≠ "requester.response_view" → key ≠ "requester.test_view" →
  is_requester_view (settings_set key v view) = is_requester_view view.
Proof.
  intros H1 H2. unfold is_requester_view, settings_set, settings_get. simpl.
  by rewrite !lookup_insert_ne.
Qed.

Lemma reset_env_string_sets (view : View) :
  is_requester_view view = false →
  reset_env_string view
  = settings_set "requester.env_string"
      (VStr (Py.join Py.NL
         (scan_env_block false [] (Py.splitlines (buffer view))).2)) view.
Proof.
  intros Hview. unfold reset_env_string. rewrite Hview.
  destruct (scan_env_block _ _ _) as [in_block env_lines].
  destruct ((length env_lines =? 0)%nat || in_block); [|done].
  unfold settings_set. simpl. by rewrite insert_insert_eq.
Qed.

Section Resets.
Context {R : Runtime}.

Lemma reset_env_file_sets (view : View) :
  is_requester_view view = false →
  reset_env_file view
  = match env_file_update (buffer view) (file_name view) with
    | Some v => settings_set "requester.env_file" v view
    | None => view
    end.
Proof.
  intros Hview. unfold reset_env_file, env_file_update. rewrite Hview. cbv zeta.
  destruct (truthy _); [|done]. destruct (path_isabs _); [done|].
  destruct (file_name view) as [f|]; [|done]. by destruct (negb _).
Qed.

Lemma extract_requester_view (view : View) :
  is_requester_view view = true → extract view = view.
Proof.
  intros Hview. unfold extract, reset_env_string. rewrite Hview.
  unfold reset_env_file. by rewrite Hview.
Qed.

(** X5: the two resets change nothing of a view but the two settings
    [requester.env_string] and [requester.env_file]: the text, the file
    name and every other setting are as before, and so is the answer of
    [is_requester_view]. *)
Theorem extract_frame (view : View) :
  buffer (extract view) = buffer view
  ∧ file_name (extract view) = file_name view
  ∧ (∀ key, key ≠ "requester.env_string" → key ≠ "requester.env_file" →
       settings (extract view) !! key = settings view !! key)
  ∧ is_requester_view (extract view) = is_requester_view view.
Proof.
  destruct (is_requester_view view) eqn:Hview.
  { rewrite extract_requester_view by done. by rewrite Hview. }
  unfold extract. rewrite reset_env_string_sets by done.
  set (w := settings_set "requester.env_string" _ view).
  assert (is_requester_view w = false) as Hw
    by (unfold w; by rewrite is_requester_view_set).
  rewrite reset_env_file_sets by done. subst w.
  destruct (env_file_update _ _) as [v|]; simpl.
  - split; [done|]. split; [done|]. split.
    + intros key H1 H2. by rewrite !lookup_insert_ne.
    + by rewrite !is_requester_view_set.
  - split; [done|]. split; [done|]. split; [|done].
    intros key H1 H2. by rewrite lookup_insert_ne.
Qed.

Lemma extract_sets (view : View) :
  is_requester_view view = false →
  extract view
  = let inline :=
      VStr (Py.join Py.NL
        (scan_env_block false [] (Py.splitlines (buffer view))).2) in
    match env_file_update (buffer view) (file_name view) with
    | Some v =>
        settings_set "requester.env_file" v
          (settings_set "requester.env_string" inline view)
    | None => settings_set "requester.env_string" inline view
    end.
Proof.
  intros Hview. unfold extract. rewrite reset_env_string_sets by done.
  rewrite reset_env_file_sets by by rewrite is_requester_view_set.
  done.
Qed.

(** X6: running the two resets again on their own result changes
    nothing. *)
Theorem extract_idempotent (view : View) :
  extract (extract view) = extract view.
Proof.
  destruct (is_requester_view view) eqn:Hview.
  { by rewrite !(extract_requester_view view) by done. }
  rewrite (extract_sets view) by done. cbv zeta.
  set (es := VStr _).
  destruct (env_file_update (buffer view) (file_name view)) as [v|] eqn:Hupd.
  - rewrite extract_sets by by rewrite !is_requester_view_set.
    cbv zeta. simpl buffer. simpl file_name. fold es. rewrite Hupd.
    unfold settings_set. simpl. apply (f_equal (mkView _ _)).
    apply map_eq. intros key.
    destruct (decide (key = "requester.env_file")) as [->|];
      [by rewrite !lookup_insert_eq|].
    rewrite !(lookup_insert_ne _ "requester.env_file") by done.
    destruct (decide (key = "requester.env_string")) as [->|];
      [by rewrite !lookup_insert_eq|].
    by rewrite !lookup_insert_ne.
  - rewrite extract_sets by by rewrite !is_requester_view_set.
    cbv zeta. simpl buffer. simpl file_name. fold es. rewrite Hupd.
    unfold settings_set. simpl. apply (f_equal (mkView _ _)).
    by rewrite insert_insert_eq.
Qed.

(** ** The directive *)

Lemma first_directive_app (before after : list string) (line : string) :
  Forall (λ l, matches_env_file l = false) before →
  matches_env_file line = true →
  first_directive (before ++ line :: after) = Some line.
Proof.
  intros Hbefore Hline. induction Hbefore as [|l before Hl _ IH]; simpl.
  - by rewrite Hline.
  - by rewrite Hl.
Qed.


(** X7: only the first line that the pattern matches counts: two buffers
    whose first matching line is the same line get the same settings from
    [reset_env_file], whatever the lines before it and after it, later
    directives included. *)
Theorem reset_env_file_first_directive_only (v1 v2 : View)
    (before1 after1 before2 after2 : list string) (line : string) :
  is_requester_view v1 = false →
  file_name v1 = file_name v2 → settings v1 = settings v2 →
  matches_env_file line = true →
  Py.splitlines (buffer v1) = before1 ++ line :: after1 →
  Py.splitlines (buffer v2) = before2 ++ line :: after2 →
  Forall (λ l, matches_env_file l = false) before1 →
  Forall (λ l, matches_env_file l = false) before2 →
  settings (reset_env_file v1) = settings (reset_env_file v2).
Proof.
  intros Hview Hname Hset Hline Hl1 Hl2 Hb1 Hb2.
  assert (is_requester_view v2 = false) as Hview2
    by (unfold is_requester_view in *; by rewrite <- Hset).
  rewrite !reset_env_file_sets by done. unfold env_file_update.
  rewrite Hl1, Hl2, !first_directive_app, Hname by done. cbv zeta.
  destruct (truthy _); [|by simpl; rewrite Hset].
  destruct (path_isabs _); [by simpl; rewrite Hset|].
  destruct (file_name v2) as [f|]; [|done].
  destruct (negb _); [by simpl; rewrite Hset | done].
Qed.

(** X8: when the first matching line leaves [env_file] unbound or bound to
    a false value in its scope, as it does when running it raises before
    the assignment, the setting is set to null, whatever it held. *)
Theorem reset_env_file_failed_directive (view : View) (line : string) :
  is_requester_view view = false →
  first_directive (Py.splitlines (buffer view)) = Some line →
  truthy (default VNone ((exec (VStr line) ∅).1 !! "env_file")) = false →
  settings (reset_env_file view) !! "requester.env_file" = Some VNone.
Proof.
  intros Hview Hline Hfalse. rewrite reset_env_file_sets by done.
  unfold env_file_update. rewrite Hline. cbv zeta. rewrite Hfalse.
  simpl. by rewrite lookup_insert_eq.
Qed.

(** X9: a truthy value [v] bound by the first matching line gives the
    path [str(v)] itself when that is absolute, whatever the file of the
    view; and when it is not absolute, in a view with a file, it gives
    [str(v)] joined to the directory of that file. *)
Theorem reset_env_file_resolves_path (view : View) (line : string) (v : PyVal) :
  is_requester_view view = false →
  first_directive (Py.splitlines (buffer view)) = Some line →
  (exec (VStr line) ∅).1 !! "env_file" = Some v → truthy v = true →
  (path_isabs (py_str v) = true →
     settings (reset_env_file view) !! "requester.env_file"
     = Some (VStr (py_str v)))
  ∧ (∀ file_path,
       path_isabs (py_str v) = false →
       file_name view = Some file_path → file_path ≠ "" →
       settings (reset_env_file view) !! "requester.env_file"
       = Some (VStr (path_join (path_dirname file_path) (py_str v)))).
Proof.
  intros Hview Hline Hv Htrue. rewrite reset_env_file_sets by done.
  unfold env_file_update. rewrite Hline. cbv zeta. rewrite Hv. simpl default.
  rewrite Htrue. split.
  - intros ->. simpl. by rewrite lookup_insert_eq.
  - intros file_path -> -> Hne. apply String.eqb_neq in Hne. rewrite Hne.
    simpl. by rewrite lookup_insert_eq.
Qed.

End Resets.

Lemma reset_env_file_first_directive_only_witness :
  settings (@reset_env_file Toy.runtime
    (mkView ("env_file = '/srv/env.py'" +:+ Py.NL +:+ "env_file = '/tmp/x.py'")
       None ∅))
  = settings (@reset_env_file Toy.runtime
    (mkView ("get('a')" +:+ Py.NL +:+ "env_file = '/srv/env.py'") None ∅)).
Proof.
  apply (@reset_env_file_first_directive_only Toy.runtime _ _
           [] ["env_file = '/tmp/x.py'"] ["get('a')"] [] "env_file = '/srv/env.py'").
  - reflexivity.
  - reflexivity.
  - reflexivity.
  - vm_compute. reflexivity.
  - vm_compute. reflexivity.
  - vm_compute. reflexivity.
  - constructor.
  - repeat constructor.
Defined.

Lemma reset_env_file_failed_directive_witness :
  settings (@reset_env_file Toy.runtime
    (mkView ("  env_file = '/srv/env.py'" +:+ Py.NL +:+ "env_file = '/tmp/x.py'")
       None {[ "requester.env_file" := VStr "/old.py" ]}))
    !! "requester.env_file"
  = Some VNone.
Proof.
  apply (@reset_env_file_failed_directive Toy.runtime _ "  env_file = '/srv/env.py'").
  - vm_compute. reflexivity.
  - vm_compute. reflexivity.
  - vm_compute. reflexivity.
Defined.

Lemma reset_env_file_resolves_path_witness :
  settings (@reset_env_file Toy.runtime
    (mkView "env_file = 'env.py'" (Some "/home/u/requests.py") ∅))
    !! "requester.env_file"
  = Some (VStr "/home/u/env.py").
Proof.
  destruct (@reset_env_file_resolves_path Toy.runtime
              (mkView "env_file = 'env.py'" (Some "/home/u/requests.py") ∅)
              "env_file = 'env.py'" (VStr "env.py")) as [_ Hrel].
  - vm_compute. reflexivity.
  - vm_compute. reflexivity.
  - vm_compute. reflexivity.
  - reflexivity.
  - apply (Hrel "/home/u/requests.py"); [reflexivity | reflexivity | discriminate].
Defined.

(** ** The evaluation and the module cache *)

Section Cache.
Context {R : Runtime}.

(** X10: a module left under [requester.env] in [sys.modules] by an
    earlier evaluation has no part in what [get_env] returns and reports:
    the entry is deleted first, so the file is loaded into a new module
    and never into the old one. *)
Theorem get_env_ignores_module_cache (s : namespace)
    (sys_modules : gmap string namespace) (old : namespace) :
  (get_env s (<["requester.env" := old]> sys_modules)).1
  = (get_env s (delete "requester.env" sys_modules)).1.
Proof.
  unfold get_env. cbv zeta. rewrite !lookup_delete_eq.
  destruct (if truthy (settings_get s "requester.env_string" VNone) then _ else _)
    as [[env_dict shown]|e]; [|done].
  destruct (truthy (settings_get s "requester.env_file" VNone)); [|done].
  by destruct (load_source _ _ _) as [file_ns|[e|name]].
Qed.

(** X12: an inline source that raises an [Exception] does not stop the
    file: the error is reported as an EnvBlock Error, and the result is the
    dictionary of the module loaded from the file. *)
Theorem get_env_block_error_keeps_file (s : namespace)
    (m : gmap string namespace) (e : string) (file_ns : namespace) :
  let env_string := settings_get s "requester.env_string" VNone in
  let env_file := settings_get s "requester.env_file" VNone in
  truthy env_string = true →
  (exec env_string (new_module "requester.env")).2 = Some (Exn e) →
  truthy env_file = true →
  load_source "requester.env" env_file None = inl file_ns →
  (get_env s m).1
  = (Returned (or_None file_ns),
     [ErrorMessage ("EnvBlock Error:" +:+ Py.NL +:+ e)]).
Proof.
  intros env_string env_file Hs He Hf Hload.
  unfold get_env. cbv zeta. fold env_string env_file.
  rewrite Hs, Hf, lookup_delete_eq, Hload.
  destruct (exec _ _) as [ns exn]. simpl in He. subst exn. simpl.
  by rewrite (right_id_L ∅ (∪)).
Qed.

(** X13: a file whose loading raises an [Exception] does not lose the
    inline source: the error is reported as an EnvFile Error, and the
    result is the namespace that the inline source left. *)
Theorem get_env_file_error_keeps_block (s : namespace)
    (m : gmap string namespace) (e : string) (inline_ns : namespace) :
  let env_string := settings_get s "requester.env_string" VNone in
  let env_file := settings_get s "requester.env_file" VNone in
  truthy env_string = true →
  exec env_string (new_module "requester.env") = (inline_ns, None) →
  truthy env_file = true →
  load_source "requester.env" env_file None = inr (Exn e) →
  (get_env s m).1
  = (Returned (or_None inline_ns),
     [ErrorMessage ("EnvFile Error:" +:+ Py.NL +:+ e)]).
Proof.
  intros env_string env_file Hs Hexec Hf Hload.
  unfold get_env. cbv zeta. fold env_string env_file.
  by rewrite Hs, Hf, lookup_delete_eq, Hload, Hexec.
Qed.

(** ** From the buffer to the requests *)



End Cache.

Lemma get_env_block_error_keeps_file_witness :
  (@get_env Toy.runtime
     {[ "requester.env_string" := VStr "a = ";
        "requester.env_file" := VStr "/home/u/env.py" ]} ∅).1.2
  = [ErrorMessage ("EnvBlock Error:" +:+ Py.NL +:+ "invalid syntax")].
Proof.
  rewrite (@get_env_block_error_keeps_file Toy.runtime _ ∅ "invalid syntax"
             (match Toy.load "requester.env" (VStr "/home/u/env.py") None with
              | inl ns => ns
              | inr _ => ∅
              end)).
  - reflexivity.
  - vm_compute. reflexivity.
  - vm_compute. reflexivity.
  - vm_compute. reflexivity.
  - vm_compute. reflexivity.
Defined.

Lemma get_env_file_error_keeps_block_witness :
  (@get_env Toy.runtime
     {[ "requester.env_string" := VStr "a = 1";
        "requester.env_file" := VStr "/home/u/bad.py" ]} ∅).1.2
  = [ErrorMessage ("EnvFile Error:" +:+ Py.NL +:+ "invalid syntax")].
Proof.
  rewrite (@get_env_file_error_keeps_block Toy.runtime _ ∅ "invalid syntax"
             (@exec Toy.runtime (VStr "a = 1") (Toy.module_dict "requester.env")).1).
  - reflexivity.
  - vm_compute. reflexivity.
  - vm_compute. reflexivity.
  - vm_compute. reflexivity.
  - vm_compute. reflexivity.
Defined.



(** ** Counting events *)

Lemma filter_bool_cons {A} (f : A → bool) (x : A) (l : list A) :
  filter (λ e, f e = true) (x :: l)
  = if f x then x :: filter (λ e, f e = true) l
    else filter (λ e, f e = true) l.
Proof. rewrite filter_cons. by destruct (f x). Qed.

(** ** The pre-flight loop, when the thread finishes *)

Lemma run_until_done (timeout_env : option Z) requests env (k : nat) :
  ∀ (later : list bool) (count : Z),
    0 ≤ count →
    match timeout_env with
    | Some t => count + Z.of_nat k ≤ abort_tick t
    | None => True
    end →
    ∃ pre,
      _run timeout_env requests env (replicate k true ++ false :: later) count
      = pre ++ start_requests requests env
      ∧ Forall quiet pre
      ∧ length (filter (λ e, is_run_reschedule e = true) pre) = k
      ∧ length (filter (λ e, is_indicator_status e = true) pre)
        = if 0 <? count then S k else k.
Proof.
  induction k as [|k IH]; intros later count Hc Htime;
    destruct (indicator_nine (count / REFRESH_MULTIPLIER)) as [activity Hact];
    cbn [replicate app _run]; rewrite Hact.
  - eexists. split; [reflexivity|].
    destruct (0 <? count); repeat split; by repeat constructor.
  - assert (match timeout_env with
            | Some timeout =>
                if timeout * 1000 <? count * REFRESH_MS / REFRESH_MULTIPLIER
                then timeout_report
                else SetTimeout (CbRun (count + 1)) (REFRESH_MS / REFRESH_MULTIPLIER)
                       :: _run timeout_env requests env
                            (replicate k true ++ false :: later) (count + 1)
            | None =>
                SetTimeout (CbRun (count + 1)) (REFRESH_MS / REFRESH_MULTIPLIER)
                  :: _run timeout_env requests env
                       (replicate k true ++ false :: later) (count + 1)
            end
            = SetTimeout (CbRun (count + 1)) (REFRESH_MS / REFRESH_MULTIPLIER)
                :: _run timeout_env requests env
                     (replicate k true ++ false :: later) (count + 1)) as Hstep.
    { destruct timeout_env as [t|]; [|done].
      assert ((t * 1000 <? count * REFRESH_MS / REFRESH_MULTIPLIER) = false) as ->;
        [|done].
      apply Z.ltb_ge, Z.nlt_ge, abort_tick_first. lia. }
    unfold timeout_report in Hstep. rewrite Hstep. clear Hstep.
    destruct (IH later (count + 1)) as (pre & -> & Hquiet & Hres & Hind);
      [lia | destruct timeout_env; [lia | done] |].
    assert ((0 <? count + 1) = true) as Hpos by (apply Z.ltb_lt; lia).
    rewrite Hpos in Hind.
    eexists. split.
    { rewrite app_comm_cons, app_assoc. reflexivity. }
    split; [|split].
    + apply Forall_app. split; [|by apply Forall_cons].
      destruct (0 <? count); by repeat constructor.
    + rewrite filter_app, length_app, filter_bool_cons. cbn [is_run_reschedule length].
      rewrite Hres. by destruct (0 <? count).
    + rewrite filter_app, length_app, filter_bool_cons.
      cbn [is_indicator_status]. rewrite Hind. by destruct (0 <? count).
Qed.

(** X16: when the thread is alive at [k] checks and finished at the next,
    and no timeout is set or the [k] checks fall before its tick, the loop
    has rescheduled itself [k] times, has shown the indicator [k] times (at
    every check but the first), has reported no error, and ends by fetching
    the requests, clearing the indicator and making the requests with the
    environment, once; a thread finished exactly at the tick of the timeout
    is still in time. *)
Theorem run_starts_requests_when_thread_done (timeout_env : option Z)
    (requests : list string) (env : option namespace) (k : nat)
    (later : list bool) :
  match timeout_env with
  | Some t => Z.of_nat k ≤ abort_tick t
  | None => True
  end →
  ∃ pre,
    _run timeout_env requests env (replicate k true ++ false :: later) 0
    = pre ++ start_requests requests env
    ∧ Forall (λ e, is_request_call e = false ∧ is_error_message e = false) pre
    ∧ length (filter (λ e, is_run_reschedule e = true) pre) = k
    ∧ length (filter (λ e, is_indicator_status e = true) pre) = k.
Proof.
  intros Htime.
  destruct (run_until_done timeout_env requests env k later 0)
    as (pre & Hrun & Hquiet & Hres & Hind); [lia | by destruct timeout_env |].
  by exists pre.
Qed.

Lemma run_starts_requests_when_thread_done_witness :
  ∃ pre,
    _run (Some 0) ["get('a')"] None (replicate 1 true ++ [false]) 0
    = pre ++ start_requests ["get('a')"] None
    ∧ Forall (λ e, is_request_call e = false ∧ is_error_message e = false) pre
    ∧ length (filter (λ e, is_run_reschedule e = true) pre) = 1%nat
    ∧ length (filter (λ e, is_indicator_status e = true) pre) = 1%nat.
Proof.
  apply (run_starts_requests_when_thread_done (Some 0) ["get('a')"] None 1 []).
  vm_compute. discriminate.
Defined.

Lemma run_without_timeout (requests : list string) (env : option namespace)
    (alive : list bool) :
  Forall (λ b, b = true) alive →
  ∀ count,
    Forall quiet (_run None requests env alive count)
    ∧ length (filter (λ e, is_run_reschedule e = true)
                (_run None requests env alive count))
      = length alive.
Proof.
  induction 1 as [|a alive -> _ IH]; intros count; [by split|].
  destruct (indicator_nine (count / REFRESH_MULTIPLIER)) as [activity Hact].
  cbn [_run]. rewrite Hact. destruct (IH (count + 1)) as [Hquiet Hres]. split.
  - apply Forall_app. split; [destruct (0 <? count); by repeat constructor|].
    by apply Forall_cons.
  - rewrite filter_app, length_app, filter_bool_cons.
    cbn [is_run_reschedule length]. rewrite Hres. by destruct (0 <? count).
Qed.

(** X17: without [timeout_env] a thread that stays alive is waited for
    without end: after any number of checks the loop has rescheduled itself
    as many times, has reported no timeout and has started no request. *)
Theorem run_without_timeout_keeps_polling (requests : list string)
    (env : option namespace) (alive : list bool) :
  Forall (λ b, b = true) alive →
  Forall (λ e, is_request_call e = false ∧ is_error_message e = false)
    (_run None requests env alive 0)
  ∧ length (filter (λ e, is_run_reschedule e = true)
              (_run None requests env alive 0))
    = length alive.
Proof. intros Halive. by apply run_without_timeout. Qed.

Lemma run_without_timeout_keeps_polling_witness :
  length (filter (λ e, is_run_reschedule e = true)
            (_run None [] None (replicate 500 true) 0))
  = 500%nat.
Proof.
  destruct (run_without_timeout_keeps_polling [] None (replicate 500 true))
    as [_ Hres]; [apply Forall_replicate; by intros | exact Hres].
Defined.

(** ** The gathering loop, tick by tick *)

Lemma omap_record_calls_response (n : Z) (queue : list Response) :
  omap handled_response (queue ≫= record_calls n) = queue.
Proof. induction queue as [|r queue IH]; [done|]. cbn. by f_equal. Qed.

Lemma omap_record_calls_error (n : Z) (queue : list Response) :
  omap handled_error (queue ≫= record_calls n) = queue.
Proof. induction queue as [|r queue IH]; [done|]. cbn. by f_equal. Qed.

Lemma record_calls_plain (n : Z) (queue : list Response) :
  Forall (λ e, is_batch_call e = false ∧ is_error_message e = false)
    (queue ≫= record_calls n).
Proof. induction queue as [|r queue IH]; [done|]. cbn. by repeat constructor. Qed.

Lemma record_calls_no_reschedule (n : Z) (queue : list Response) :
  filter (λ e, is_gather_reschedule e = true) (queue ≫= record_calls n) = [].
Proof. induction queue as [|r queue IH]; [done | exact IH]. Qed.

Lemma gather_run (num_requests : Z) (pre : list PoolTick) (last : PoolTick) :
  Forall (λ t, is_done t = false) pre → is_done last = true →
  ∀ count responses,
    let drained := concat (completed <$> (pre ++ [last])) in
    let sorted := sort_by_ordering (default [] responses ++ drained) in
    ∃ before,
      gather_responses num_requests (pre ++ [last]) count responses
      = before ++ [HandleResponses sorted; HandleErrors sorted]
          ++ handle_errors sorted ++ [SetStatus "requester.activity" ""]
      ∧ omap handled_response before = drained
      ∧ omap handled_error before = drained
      ∧ Forall (λ e, is_batch_call e = false ∧ is_error_message e = false) before
      ∧ length (filter (λ e, is_gather_reschedule e = true) before) = length pre.
Proof.
  intros Hpre Hlast. induction Hpre as [|tick pre Htick _ IH]; intros count responses.
  - cbn [app gather_responses].
    destruct (show_activity_events (pending_requests last) count) as [act ->].
    rewrite drain_spec, Hlast. cbn [fmap list_fmap concat]. rewrite app_nil_r.
    eexists. split; [by rewrite app_assoc|].
    rewrite !omap_app, omap_record_calls_response, omap_record_calls_error.
    split; [done|]. split; [done|]. split.
    + apply Forall_app. split; [by repeat constructor | apply record_calls_plain].
    + by rewrite filter_app, record_calls_no_reschedule.
  - cbn [app gather_responses].
    destruct (show_activity_events (pending_requests tick) count) as [act ->].
    rewrite drain_spec, Htick.
    destruct (IH (count + 1) (Some (default [] responses ++ completed tick)))
      as (before & -> & Hresp & Herr & Hplain & Hres).
    cbn [fmap list_fmap concat default]. cbn [default] in *. unfold id.
    exists ([SetStatus "requester.activity" ("Requester " +:+ act);
             ShowActivity (pending_requests tick) count act]
            ++ (completed tick ≫= record_calls num_requests)
            ++ SetTimeout (CbGather (count + 1)) REFRESH_MS :: before).
    split; [by rewrite <- !app_assoc|].
    rewrite !omap_app, omap_record_calls_response, omap_record_calls_error.
    cbn [omap list_omap handled_response handled_error].
    fold (omap handled_response before). fold (omap handled_error before).
    rewrite Hresp, Herr. split; [done|]. split; [done|]. split.
    + rewrite !Forall_app. split; [by repeat constructor|].
      split; [apply record_calls_plain | by apply Forall_cons].
    + rewrite !filter_app, !length_app, record_calls_no_reschedule, !filter_bool_cons.
      cbn [is_gather_reschedule length]. rewrite Hres. done.
Qed.

(** X18: a gathering run that ends has this shape: first the ticks, which
    together call [handle_response] and [handle_error] once for each
    drained record in the order of arrival and reschedule once per tick
    that is not the last; then the two batch hooks with the sorted list;
    then the report of [handle_errors]; and last of all the clearing of the
    indicator.  Nothing is reported before the batch hooks. *)
Theorem gather_completed_run_shape (num_requests : Z) (pre : list PoolTick)
    (last : PoolTick) :
  Forall (λ t, is_done t = false) pre → is_done last = true →
  let drained := concat (completed <$> (pre ++ [last])) in
  let sorted := sort_by_ordering drained in
  ∃ before,
    gather_responses num_requests (pre ++ [last]) 0 None
    = before ++ [HandleResponses sorted; HandleErrors sorted]
        ++ handle_errors sorted ++ [SetStatus "requester.activity" ""]
    ∧ omap handled_response before = drained
    ∧ omap handled_error before = drained
    ∧ Forall (λ e, is_batch_call e = false ∧ is_error_message e = false) before
    ∧ length (filter (λ e, is_gather_reschedule e = true) before) = length pre.
Proof. intros Hpre Hlast. by apply (gather_run num_requests pre last). Qed.

Lemma gather_completed_run_shape_witness :
  let r0 := mkResponse "get('http://a')" (Some "200") None 0 in
  let r1 := mkResponse "get('http://b')" None (Some "Timeout") 1 in
  ∃ before,
    gather_responses 2 ([mkTick ["a"] false [r1]] ++ [mkTick [] true [r0]]) 0 None
    = before ++ [HandleResponses [r0; r1]; HandleErrors [r0; r1]]
        ++ handle_errors [r0; r1] ++ [SetStatus "requester.activity" ""]
    ∧ omap handled_response before = [r1; r0].
Proof.
  intros r0 r1.
  destruct (gather_completed_run_shape 2 [mkTick ["a"] false [r1]]
              (mkTick [] true [r0]))
    as (before & Hrun & Hresp & _); [by repeat constructor | reflexivity |].
  exists before. split; [exact Hrun | exact Hresp].
Defined.

Lemma gather_pending (num_requests : Z) (ticks : list PoolTick) :
  Forall (λ t, is_done t = false) ticks →
  ∀ count responses,
    let trace := gather_responses num_requests ticks count responses in
    Forall (λ e, is_batch_call e = false ∧ is_error_message e = false) trace
    ∧ (indicator_cleared ∉ trace)
    ∧ omap handled_response trace = concat (completed <$> ticks)
    ∧ length (filter (λ e, is_gather_reschedule e = true) trace) = length ticks.
Proof.
  induction 1 as [|tick ticks Htick _ IH]; intros count responses.
  { cbn. split; [done|]. split; [by intros ?%elem_of_nil | done]. }
  cbn [gather_responses].
  destruct (show_activity_events (pending_requests tick) count) as [act ->].
  rewrite drain_spec, Htick. cbv zeta.
  destruct (IH (count + 1) (Some (default [] responses ++ completed tick)))
    as (Hplain & Hclear & Hresp & Hres). cbv zeta in *.
  split; [|split; [|split]].
  - rewrite !Forall_app. split; [by repeat constructor|].
    split; [apply record_calls_plain|]. split; [by repeat constructor | done].
  - rewrite !elem_of_app. intros [Hin|[Hin|[Hin|Hin]]]; [| | |done].
    + apply elem_of_cons in Hin as [Heq|Hin]; [discriminate|].
      apply elem_of_cons in Hin as [Heq|Hin]; [discriminate|].
      by apply elem_of_nil in Hin.
    + pose proof (record_calls_plain num_requests (completed tick)) as Hcalls.
      rewrite Forall_forall in Hcalls. clear -Hin.
      induction (completed tick) as [|r q IHq]; [by apply elem_of_nil in Hin|].
      cbn in Hin. apply elem_of_cons in Hin as [Heq|Hin]; [discriminate|].
      apply elem_of_cons in Hin as [Heq|Hin]; [discriminate | by apply IHq].
    + apply elem_of_cons in Hin as [Heq|Hin]; [discriminate|].
      by apply elem_of_nil in Hin.
  - rewrite !omap_app, omap_record_calls_response, Hresp. done.
  - rewrite !filter_app, !length_app, record_calls_no_reschedule, !filter_bool_cons.
    cbn [is_gather_reschedule length]. rewrite Hres. done.
Qed.

(** X19: as long as no tick has read [is_done], nothing is final: the
    batch hooks are not called, no error is reported, the indicator is not
    cleared, [handle_response] has been given the records drained so far in
    the order of arrival, and every tick has scheduled the next. *)
Theorem gather_pending_run (num_requests : Z) (ticks : list PoolTick) :
  Forall (λ t, is_done t = false) ticks →
  let trace := gather_responses num_requests ticks 0 None in
  Forall (λ e, is_batch_call e = false ∧ is_error_message e = false) trace
  ∧ (indicator_cleared ∉ trace)
  ∧ omap handled_response trace = concat (completed <$> ticks)
  ∧ length (filter (λ e, is_gather_reschedule e = true) trace) = length ticks.
Proof. intros Hticks. by apply gather_pending. Qed.

Lemma gather_pending_run_witness :
  let r1 := mkResponse "get('http://b')" None (Some "Timeout") 1 in
  let trace :=
    gather_responses 2 [mkTick ["a"; "b"] false []; mkTick ["a"] false [r1]] 0 None in
  omap handled_response trace = [r1]
  ∧ length (filter (λ e, is_gather_reschedule e = true) trace) = 2%nat.
Proof.
  intros r1 trace.
  destruct (gather_pending_run 2
              [mkTick ["a"; "b"] false []; mkTick ["a"] false [r1]])
    as (_ & _ & Hresp & Hres); [by repeat constructor|].
  split; [exact Hresp | exact Hres].
Defined.

(** ** The report at the end of a run *)

Lemma handle_errors_length (l : list Response) :
  length (handle_errors l)
  = if decide (Exists (λ r, has_error r = true) l) then 1%nat else 0%nat.
Proof.
  unfold handle_errors. cbv zeta.
  assert (filter (λ r, has_error r = true) l = []
          ↔ ¬ Exists (λ r, has_error r = true) l) as Hnone.
  { induction l as [|r l IH]; [by split; [intros _ ?%Exists_nil|] |].
    rewrite filter_cons, Exists_cons. destruct (decide (has_error r = true)).
    - split; [done | tauto].
    - rewrite IH. tauto. }
  destruct (filter _ l) as [|r errs] eqn:Hf.
  - case_decide; [tauto | done].
  - case_decide as Hex; [done|]. by apply Hnone in Hex.
Qed.

Lemma handle_errors_are_messages (l : list Response) :
  filter (λ e, is_error_message e = true) (handle_errors l) = handle_errors l.
Proof. unfold handle_errors. by destruct (map _ _). Qed.

(** X20: a gathering run that ends shows at most one blocking report: one
    when some drained record has an error, none otherwise, however many
    records have one. *)
Theorem gather_reports_once (num_requests : Z) (pre : list PoolTick)
    (last : PoolTick) :
  Forall (λ t, is_done t = false) pre → is_done last = true →
  length (filter (λ e, is_error_message e = true)
            (gather_responses num_requests (pre ++ [last]) 0 None))
  = if decide (Exists (λ r, has_error r = true)
                 (concat (completed <$> (pre ++ [last]))))
    then 1%nat else 0%nat.
Proof.
  intros Hpre Hlast.
  destruct (gather_run num_requests pre last Hpre Hlast 0 None)
    as (before & -> & _ & _ & Hplain & _). cbn [default app].
  rewrite filter_app, !filter_bool_cons. cbn [is_error_message].
  rewrite filter_app, handle_errors_are_messages, filter_bool_cons.
  cbn [is_error_message]. rewrite filter_nil, app_nil_r.
  assert (filter (λ e, is_error_message e = true) before = []) as ->.
  { clear -Hplain. induction Hplain as [|e l [_ He] _ IH]; [done|].
    by rewrite filter_bool_cons, He. }
  cbn [app]. rewrite handle_errors_length.
  assert (Exists (λ r, has_error r = true)
            (sort_by_ordering (concat (completed <$> pre ++ [last])))
          ↔ Exists (λ r, has_error r = true)
              (concat (completed <$> pre ++ [last]))) as Hperm.
  { rewrite !Exists_exists. split; intros (r & Hin & Hr); exists r;
      (split; [|done]); [by rewrite <- sort_by_ordering_perm
                        | by rewrite sort_by_ordering_perm]. }
  repeat case_decide; tauto || done.
Qed.

Lemma gather_reports_once_witness :
  let r0 := mkResponse "get('http://a')" None (Some "Timeout") 0 in
  let r1 := mkResponse "get('http://b')" None (Some "Refused") 1 in
  length (filter (λ e, is_error_message e = true)
            (gather_responses 2 ([mkTick ["a"] false [r1]] ++ [mkTick [] true [r0]])
               0 None))
  = 1%nat.
Proof.
  intros r0 r1.
  rewrite (gather_reports_once 2 [mkTick ["a"] false [r1]] (mkTick [] true [r0]));
    [reflexivity | by repeat constructor | reflexivity].
Defined.

(** ** The sort of the final tick *)

Lemma insert_by_ordering_keeps_ties (k : Z) (r : Response) (l : list Response) :
  filter (λ x, ordering x = k) (insert_by_ordering r l)
  = filter (λ x, ordering x = k) (r :: l).
Proof.
  induction l as [|x l IH]; [done|]. cbn [insert_by_ordering].
  destruct (ordering r <=? ordering x) eqn:Hle; [done|].
  apply Z.leb_gt in Hle. rewrite filter_cons, IH, !filter_cons.
  repeat case_decide; done || lia.
Qed.

(** X21: the sort by ordering index puts any list of records in ascending
    order, keeps every record, and keeps records of equal index in the
    order they had, so two records that the pool gave the same index stay
    in their order of arrival. *)
Theorem sort_by_ordering_stable (l : list Response) :
  Sorted by_ordering (sort_by_ordering l)
  ∧ sort_by_ordering l ≡ₚ l
  ∧ ∀ k, filter (λ x, ordering x = k) (sort_by_ordering l)
         = filter (λ x, ordering x = k) l.
Proof.
  split; [apply sort_by_ordering_sorted|]. split; [apply sort_by_ordering_perm|].
  intros k. induction l as [|r l IH]; [done|]. cbn [sort_by_ordering].
  by rewrite insert_by_ordering_keeps_ties, !filter_cons, IH.
Qed.

(** ** The other commands *)

Lemma substring_none (n : nat) (s : string) : String.substring n 0 s = "".
Proof.
  revert n. induction s as [|c s IH]; intros [|n]; simpl; done.
Qed.

Lemma append_empty_r (s : string) : s +:+ "" = s.
Proof.
  induction s as [|c s IH]; [done|].
  change (String c (s +:+ "") = String c s). by f_equal.
Qed.

(** X22: [RequesterReplaceViewTextCommand] leaves the buffer holding the
    given text and nothing else, whatever it held, and touches neither the
    file name nor the settings; the selection becomes the single empty
    region at [point] when a point other than 0 is given, and is what the
    editor makes of it when no point or the point 0 is given. *)
Theorem replace_view_text_result
    (sel_after_erase : Region → list Region → list Region)
    (sel_after_insert : Z → string → list Region → list Region)
    (text : string) (point : option Z) (view : View) (sel : list Region) :
  let result :=
    replace_view_text sel_after_erase sel_after_insert text point view sel in
  result.1 = mkView text (file_name view) (settings view)
  ∧ result.2
    = match point with
      | Some p =>
          if p =? 0
          then sel_after_insert 0 text
                 (sel_after_erase
                    (mkRegion 0 (Z.of_nat (String.length (buffer view)))) sel)
          else [mkRegion p p]
      | None =>
          sel_after_insert 0 text
            (sel_after_erase
               (mkRegion 0 (Z.of_nat (String.length (buffer view)))) sel)
      end.
Proof.
  unfold replace_view_text. cbv zeta.
  assert (insert_text 0 text
            (erase (mkRegion 0 (Z.of_nat (String.length (buffer view))))
               (buffer view)) = text) as ->.
  { unfold insert_text, erase, text_before, text_from. simpl region_a.
    simpl region_b. rewrite Nat2Z.id, Nat.sub_diag.
    change (Z.to_nat 0) with 0%nat. rewrite !substring_none. simpl.
    apply append_empty_r. }
  destruct point as [p|]; simpl; [|done].
  by destruct (p =? 0).
Qed.

Lemma close_response_tabs_closed (sheets : list (option View)) :
  (close_response_tabs sheets).1
  = omap (λ sheet, sheet ≫= λ view,
            if is_response_view view then Some view else None) sheets.
Proof.
  induction sheets as [|sheet sheets IH]; [done|]. cbn [close_response_tabs].
  destruct (close_response_tabs sheets) as [closed kept]. simpl in IH.
  cbn [omap list_omap]. rewrite <- IH. unfold is_response_view.
  destruct sheet as [view|]; [|done]. simpl. by destruct (truthy _).
Qed.

Lemma close_response_tabs_kept (sheets : list (option View)) :
  (close_response_tabs sheets).2 = filter (λ sheet, stays_open sheet = true) sheets.
Proof.
  induction sheets as [|sheet sheets IH]; [done|]. cbn [close_response_tabs].
  destruct (close_response_tabs sheets) as [closed kept]. simpl in IH.
  rewrite filter_bool_cons, <- IH. unfold stays_open, is_response_view.
  destruct sheet as [view|]; [|done]. by destruct (truthy _).
Qed.

(** X23: [RequesterCloseResponseTabsCommand] closes exactly the views of
    the window whose [requester.response_view] setting is true, every one
    of them a view that [is_requester_view] accepts; sheets without a view
    and views without that setting, test views among them, stay; and a
    second run closes nothing more. *)
Theorem close_response_tabs_result (sheets : list (option View)) :
  let closed := (close_response_tabs sheets).1 in
  let kept := (close_response_tabs sheets).2 in
  (∀ view, view ∈ closed ↔ Some view ∈ sheets ∧ is_response_view view = true)
  ∧ Forall (λ view, is_requester_view view = true) closed
  ∧ (∀ sheet, sheet ∈ kept ↔ sheet ∈ sheets ∧ stays_open sheet = true)
  ∧ close_response_tabs kept = ([], kept)
  ∧ (length closed + length kept = length sheets)%nat.
Proof.
  cbv zeta. rewrite close_response_tabs_closed, close_response_tabs_kept.
  split; [|split; [|split; [|split]]].
  - intros view. rewrite list_elem_of_omap. split.
    + intros (sheet & Hin & Hsome). destruct sheet as [v|]; [|done].
      simpl in Hsome. destruct (is_response_view v) eqn:Hv; [|done].
      by injection Hsome as <-.
    + intros [Hin Hv]. exists (Some view). split; [done|]. simpl. by rewrite Hv.
  - apply Forall_forall. intros view (sheet & Hin & Hsome)%list_elem_of_omap.
    destruct sheet as [v|]; [|done]. simpl in Hsome.
    destruct (is_response_view v) eqn:Hv; [|done]. injection Hsome as <-.
    unfold is_requester_view. unfold is_response_view in Hv. by rewrite Hv.
  - intros sheet. rewrite list_elem_of_filter. tauto.
  - induction sheets as [|sheet sheets IH]; [done|].
    rewrite filter_bool_cons. destruct (stays_open sheet) eqn:Hs; [|done].
    cbn [close_response_tabs]. rewrite IH.
    destruct sheet as [view|]; [|done]. unfold stays_open in Hs.
    fold (is_response_view view). by destruct (is_response_view view).
  - induction sheets as [|sheet sheets IH]; [done|].
    cbn [omap list_omap]. rewrite filter_bool_cons.
    destruct sheet as [view|]; simpl; [destruct (is_response_view view); simpl|];
      lia.
Qed.
